(** * split_diachron_data: CoNLL-U sentence splitting

    A shallow embedding of [split_diachron_data.py]: the sentence reader
    [read_conllu_sentences], the writer [write_conllu_sentences] and the
    80/10/10 partitioning done by [main], together with the properties the
    design document states about them.

    Conventions of the embedding.
    - A Python [str] is a [string]; the characters that matter are the line
      feed [LF] and the carriage return [CR].
    - A file is the text it holds.  Files are opened in text mode with the
      default [newline=None]: reading goes through the universal newlines
      translation ([universal_newlines]) and the file iterator
      ([readlines]) before the loop of [read_conllu_sentences] sees a line,
      and a line feed written is stored as [os.linesep]
      ([store_newlines]).
    - Python floats are IEEE 754 binary64 numbers, taken from the Standard
      Library's [SpecFloat]; [int(0.8 * n)] is a conversion, a rounded
      product and a truncation.
    - The [random] module is an interface ([PyRandom]) over the state of its
      generator; [random.shuffle] is the Fisher-Yates loop of the CPython
      library over it.
    - A run ends in an [outcome].  Failures of the file system and of the
      UTF-8 decoding are outside the model, and so are the progress messages
      printed on the console. *)

From Stdlib Require Import String Ascii Bool Arith ZArith Lia Permutation List.
From Stdlib Require Import Floats.SpecFloat.
Import ListNotations.

Set Implicit Arguments.

(* ================================================================== *)
(** * Definitions *)
(* ================================================================== *)

(** ** Text layer *)

Module Text.

Local Open Scope string_scope.

Definition LF : ascii := "010"%char.
Definition CR : ascii := "013"%char.

(** One line terminator, as a string: the Python literal ['\n']. *)
Definition nl : string := String LF EmptyString.

Definition is_lf (c : ascii) : bool := Ascii.eqb c LF.
Definition is_cr (c : ascii) : bool := Ascii.eqb c CR.

(** [s.rstrip('\n')]: every trailing line feed is removed, nothing else. *)
Fixpoint rstrip_nl (s : string) : string :=
  match s with
  | EmptyString => EmptyString
  | String c rest =>
      match rstrip_nl rest with
      | EmptyString => if is_lf c then EmptyString else String c EmptyString
      | r => String c r
      end
  end.

(** Text-mode decoding with [newline=None]: each of ['\r\n'], ['\r'] and
    ['\n'] reaches the caller as a single ['\n']. *)
Fixpoint universal_newlines (s : string) : string :=
  match s with
  | EmptyString => EmptyString
  | String c rest =>
      if is_cr c then
        String LF
          match rest with
          | EmptyString => EmptyString
          | String c' rest' =>
              if is_lf c' then universal_newlines rest'
              else universal_newlines rest
          end
      else String c (universal_newlines rest)
  end.

(** [for line in f]: the decoded text cut after every ['\n']; each line keeps
    its terminator, and a last line without one is still produced. *)
Fixpoint readlines (s : string) : list string :=
  match s with
  | EmptyString => []
  | String c rest =>
      if is_lf c then nl :: readlines rest
      else
        match readlines rest with
        | [] => [String c EmptyString]
        | l :: ls => String c l :: ls
        end
  end.

(** Text-mode encoding with [newline=None]: each ['\n'] written reaches the
    file as [os.linesep]. *)
Fixpoint store_newlines (linesep : string) (s : string) : string :=
  match s with
  | EmptyString => EmptyString
  | String c rest =>
      if is_lf c then linesep ++ store_newlines linesep rest
      else String c (store_newlines linesep rest)
  end.

(** The two values of [os.linesep]: POSIX and Windows. *)
Definition crlf : string := String CR nl.

Definition is_linesep (linesep : string) : Prop :=
  linesep = nl \/ linesep = crlf.

(** The lines the loop of [read_conllu_sentences] iterates over, for a file
    holding [content]. *)
Definition file_lines (content : string) : list string :=
  readlines (universal_newlines content).

(** Characters the reader takes for (part of) a line terminator. *)
Definition is_terminator (c : ascii) : bool := is_lf c || is_cr c.

Fixpoint forallb_string (p : ascii -> bool) (s : string) : bool :=
  match s with
  | EmptyString => true
  | String c rest => p c && forallb_string p rest
  end.

Definition no_terminator (s : string) : bool :=
  forallb_string (fun c => negb (is_terminator c)) s.

Definition no_lf (s : string) : bool :=
  forallb_string (fun c => negb (is_lf c)) s.

Definition no_cr (s : string) : bool :=
  forallb_string (fun c => negb (is_cr c)) s.

(** Whitespace other than the line feed: space, tab, carriage return. *)
Definition is_other_space (c : ascii) : bool :=
  Ascii.eqb c " "%char || Ascii.eqb c "009"%char || is_cr c.

Definition is_blank_space (c : ascii) : bool :=
  Ascii.eqb c " "%char || Ascii.eqb c "009"%char.

Definition is_empty (s : string) : bool :=
  match s with EmptyString => true | _ => false end.

(** [name] matches the pattern ['*.conllu']. *)
Fixpoint has_suffix (suffix name : string) : bool :=
  String.eqb name suffix ||
  match name with
  | EmptyString => false
  | String _ rest => has_suffix suffix rest
  end.

End Text.

Import Text.

(** ** Reader *)

(** A sentence is the list of its lines. *)
Definition sentence := list string.

Module Reader.

(** The loop state: [(sentences, current_sentence)]. *)
Definition state := (list sentence * sentence)%type.

Definition nonempty {A} (l : list A) : bool :=
  match l with [] => false | _ => true end.

(** One iteration of the [for line in f] loop (lines 25 to 32). *)
Definition step (st : state) (line : string) : state :=
  let '(sentences, current_sentence) := st in
  let line := rstrip_nl line in
  if String.eqb line EmptyString then
    if nonempty current_sentence
    then (sentences ++ [current_sentence], [])
    else (sentences, current_sentence)
  else (sentences, current_sentence ++ [line]).

(** After the loop (lines 35 to 38). *)
Definition finish (st : state) : list sentence :=
  let '(sentences, current_sentence) := st in
  if nonempty current_sentence
  then sentences ++ [current_sentence]
  else sentences.

(** The function on the lines the file iterator yields. *)
Definition read_lines (lines : list string) : list sentence :=
  finish (fold_left step lines ([], [])).

(** [read_conllu_sentences(file_path)] for a file holding [content]. *)
Definition read_conllu_sentences (content : string) : list sentence :=
  read_lines (file_lines content).

(** The reader as the design document words it: blank lines cut the
    sequence of lines into sentences, a blank line closes the sentence being
    accumulated, the end of the input flushes what is left. *)
Fixpoint group_lines (current : sentence) (lines : list string)
  : list sentence :=
  match lines with
  | [] => if nonempty current then [current] else []
  | line :: rest =>
      if is_empty (rstrip_nl line) then
        if nonempty current then current :: group_lines [] rest
        else group_lines [] rest
      else group_lines (current ++ [rstrip_nl line]) rest
  end.

(** The content lines of an input: the non-empty stripped lines, in order. *)
Definition content_lines (lines : list string) : list string :=
  filter (fun l => negb (is_empty l)) (map rstrip_nl lines).

Local Open Scope string_scope.

(** A line a sentence of the reader can hold: not empty, and free of the
    characters the reader takes for line terminators. *)
Definition clean_line (line : string) : Prop :=
  line <> "" /\ no_terminator line = true.

(** A sentence as the reader produces them. *)
Definition clean_sentence (s : sentence) : Prop :=
  s <> [] /\ Forall clean_line s.

Local Close Scope string_scope.

End Reader.

Import Reader.

(** ** Writer *)

Module Writer.

Local Open Scope string_scope.

(** [enumerate(sentences)]. *)
Definition enumerate {A} (l : list A) : list (nat * A) :=
  combine (seq 0 (List.length l)) l.

(** The inner loop: [f.write(line + '\n')] for each line. *)
Definition write_lines (buf : string) (s : sentence) : string :=
  fold_left (fun b line => b ++ (line ++ nl)) s buf.

(** The text [write_conllu_sentences(sentences, output_path)] writes.
    [len(sentences) - 1] is an integer subtraction. *)
Definition write_conllu_sentences (sentences : list sentence) : string :=
  fold_left
    (fun buf '(i, s) =>
       let buf := write_lines buf s in
       if (Z.of_nat i <? Z.of_nat (List.length sentences) - 1)%Z
       then buf ++ nl else buf)
    (enumerate sentences) "".

(** A line with its terminator. *)
Definition with_nl (line : string) : string := line ++ nl.

(** The lines of one sentence, each with its terminator. *)
Definition block (s : sentence) : string :=
  String.concat "" (map with_nl s).

(** The format as the design document words it: blocks separated by one
    blank line, nothing after the last block. *)
Definition render (sentences : list sentence) : string :=
  String.concat nl (map block sentences).

End Writer.

Import Writer.

(** ** Floats and the split sizes *)

Module PyFloat.

Local Open Scope Z_scope.

(** binary64 *)
Definition prec : Z := 53.
Definition emax : Z := 1024.

Definition float := spec_float.

(** The literal [0.8]: the double nearest to 4/5, [0x1.999999999999ap-1]. *)
Definition float_0_8 : float := S754_finite false 7205759403792794 (-53).

(** The literal [0.1]: the double nearest to 1/10, [0x1.999999999999ap-4]. *)
Definition float_0_1 : float := S754_finite false 7205759403792794 (-56).

(** [x * y] on floats. *)
Definition mul (x y : float) : float := SFmul prec emax x y.

(** The conversion of an [int] operand to [float]: correctly rounded, and
    [None] for the [OverflowError] of an integer beyond the finite doubles. *)
Definition of_int (n : Z) : option float :=
  match binary_normalize prec emax n 0 false with
  | S754_infinity _ => None
  | f => Some f
  end.

(** [int(x)]: truncation toward zero; [None] for the error raised on an
    infinity or a NaN. *)
Definition to_int (x : float) : option Z :=
  match x with
  | S754_zero _ => Some 0
  | S754_finite s m e => Some (cond_Zopp s (Z.shiftl (Zpos m) e))
  | _ => None
  end.

(** [int(c * n)] for a float [c] and an int [n]. *)
Definition int_mul (c : float) (n : Z) : option Z :=
  match of_int n with
  | None => None
  | Some x => to_int (mul c x)
  end.

(** Lines 94 to 96 of [main]: [(train_size, dev_size, test_size)]. *)
Definition split_sizes (total_sentences : Z) : option (Z * Z * Z) :=
  match int_mul float_0_8 total_sentences,
        int_mul float_0_1 total_sentences with
  | Some train_size, Some dev_size =>
      Some (train_size, dev_size, total_sentences - train_size - dev_size)
  | _, _ => None
  end.

(** A float that is not a negative number. *)
Definition is_nonneg (x : float) : Prop :=
  match x with
  | S754_finite s _ _ => s = false
  | _ => True
  end.

(** The sizes as the design document words them: floors of the exact
    rational products. *)
Definition exact_sizes (total : Z) : Z * Z * Z :=
  let train := 4 * total / 5 in
  let dev := total / 10 in
  (train, dev, total - train - dev).

End PyFloat.

(** ** Lists, slices and the shuffle *)

Module PyList.

(** [x[i] = v] for an index in range. *)
Fixpoint update {A} (i : nat) (v : A) (x : list A) : list A :=
  match x, i with
  | [], _ => []
  | _ :: t, O => v :: t
  | h :: t, S i' => h :: update i' v t
  end.

(** [x[i], x[j] = x[j], x[i]]: the right-hand side is read first, then
    [x[i]] and [x[j]] are assigned in that order; [None] is the [IndexError]
    of an index out of range. *)
Definition swap {A} (i j : nat) (x : list A) : option (list A) :=
  match nth_error x j, nth_error x i with
  | Some xj, Some xi => Some (update j xi (update i xj x))
  | _, _ => None
  end.

(** A slice bound, as Python normalises it for a list of length [len]. *)
Definition bound (len i : Z) : Z :=
  if (i <? 0)%Z then Z.max 0 (i + len) else Z.min i len.

(** [x[lo:hi]] *)
Definition slice {A} (lo hi : Z) (x : list A) : list A :=
  let len := Z.of_nat (length x) in
  let a := Z.to_nat (bound len lo) in
  let b := Z.to_nat (bound len hi) in
  firstn (b - a) (skipn a x).

(** [x[:hi]] and [x[lo:]] *)
Definition slice_to {A} (hi : Z) (x : list A) : list A := slice 0 hi x.
Definition slice_from {A} (lo : Z) (x : list A) : list A :=
  slice lo (Z.of_nat (length x)) x.

End PyList.

Import PyList.

(** The part of the [random] module the script uses, over the state of its
    hidden generator.  [seed a g] is the state after [random.seed(a)] run in
    state [g]; [randbelow n g] draws an integer below [n] and steps the
    generator. *)
Class PyRandom := {
  rng_state : Type;
  seed : Z -> rng_state -> rng_state;
  randbelow : nat -> rng_state -> nat * rng_state
}.

(** What the library promises of [randbelow]: a result in [range(n)]. *)
Definition randbelow_in_range (R : PyRandom) : Prop :=
  forall n g, 0 < n -> fst (randbelow n g) < n.

(** What the library promises of [seed] with an integer argument: the new
    state is a function of the seed, whatever the generator held before. *)
Definition seed_resets (R : PyRandom) : Prop :=
  forall a g g', seed a g = seed a g'.

Module Shuffle.

Section WithRandom.

Context {R : PyRandom} {A : Type}.

(** The loop of [random.shuffle]:
    [for i in reversed(range(1, len(x))): j = randbelow(i + 1); swap]. *)
Fixpoint shuffle_loop (indices : list nat) (x : list A) (g : rng_state)
  : option (list A * rng_state) :=
  match indices with
  | [] => Some (x, g)
  | i :: rest =>
      let '(j, g') := randbelow (i + 1) g in
      match swap i j x with
      | None => None
      | Some x' => shuffle_loop rest x' g'
      end
  end.

Definition shuffle (x : list A) (g : rng_state)
  : option (list A * rng_state) :=
  shuffle_loop (rev (seq 1 (length x - 1))) x g.

End WithRandom.

End Shuffle.

Import Shuffle.

(** ** The script *)

Module Script.

Local Open Scope string_scope.

(** The exceptions the computation of [main] can raise once its input is
    read.  Those of the file system and of the decoder (a matching entry
    that is a directory, a file that is not UTF-8, a file that cannot be
    opened or written) are not modelled: a [directory] holds regular files
    by their decoded text. *)
Inductive exception := ZeroDivisionError | IndexError | OverflowError.

(** How a run ends: the report of an empty input and a normal return, an
    unhandled exception before anything is written, or the three files
    written, in order, as (name, text) pairs.  The progress messages of the
    console are not part of the model. *)
Inductive outcome :=
| NoInput (report : string)
| Raised (e : exception)
| Written (files : list (string * string)).

(** The regular files of the input directory, as (name, text) pairs in the
    order the directory is listed. *)
Definition directory := list (string * string).

(** [input_dir.glob('*.conllu')] *)
Definition glob_conllu (dir : directory) : directory :=
  filter (fun f => has_suffix ".conllu" (fst f)) dir.

(** Lines 75 to 83: the sentences of all files, in order. *)
Definition read_all (files : directory) : list sentence :=
  fold_left (fun all_sentences f =>
               (all_sentences ++ read_conllu_sentences (snd f))%list)
            files [].

(** Lines 104 to 106. *)
Definition partition {A} (train_size dev_size : Z) (all_sentences : list A)
  : list A * list A * list A :=
  (slice_to train_size all_sentences,
   slice train_size (train_size + dev_size) all_sentences,
   slice_from (train_size + dev_size) all_sentences).

Definition files_written (o : outcome) : list (string * string) :=
  match o with Written files => files | _ => [] end.

Definition returns_normally (o : outcome) : bool :=
  match o with Raised _ => false | _ => true end.

Section WithRandom.

Context {R : PyRandom}.

(** [main()], run with the generator of the [random] module in state [g0]
    and the input directory holding [dir]. *)
Definition main (g0 : rng_state) (dir : directory) : outcome :=
  let conllu_files := glob_conllu dir in
  if negb (nonempty conllu_files) then
    NoInput "No .conllu files found in raw/diachron"
  else
    let all_sentences := read_all conllu_files in
    let g := seed 42 g0 in
    match shuffle all_sentences g with
    | None => Raised IndexError
    | Some (all_sentences, _) =>
        let total_sentences := Z.of_nat (length all_sentences) in
        match PyFloat.split_sizes total_sentences with
        | None => Raised OverflowError
        | Some (train_size, dev_size, test_size) =>
            if (total_sentences =? 0)%Z then Raised ZeroDivisionError
            else
              let '(train_sentences, dev_sentences, test_sentences) :=
                partition train_size dev_size all_sentences in
              Written
                [("diachron-ud-train.conllu",
                   write_conllu_sentences train_sentences);
                 ("diachron-ud-dev.conllu",
                   write_conllu_sentences dev_sentences);
                 ("diachron-ud-test.conllu",
                   write_conllu_sentences test_sentences)]
        end
    end.

End WithRandom.

End Script.

Import Script.

(** ** A small generator to run the script on *)

Module Lcg.

(** A linear congruential generator, used to evaluate the script on
    concrete inputs. *)
Definition next (s : Z) : Z := ((s * 1103515245 + 12345) mod 2147483648)%Z.

#[export] Instance lcg : PyRandom := {
  rng_state := Z;
  seed := fun a _ => next (Z.abs a);
  randbelow := fun n s => (Z.to_nat (s mod Z.of_nat n), next s)
}.

End Lcg.

(* ================================================================== *)
(** * Properties *)
(* ================================================================== *)

(** ** Strings *)

Section StringFacts.

Local Open Scope string_scope.

Lemma append_empty_r (s : string) : s ++ "" = s.
Proof. induction s as [|c s IH]; simpl; [reflexivity | now rewrite IH]. Qed.

Lemma append_assoc (a b c : string) : (a ++ b) ++ c = a ++ (b ++ c).
Proof. induction a as [|x a IH]; simpl; [reflexivity | now rewrite IH]. Qed.

Lemma is_empty_eqb (s : string) : String.eqb s "" = is_empty s.
Proof. destruct s; reflexivity. Qed.

Lemma is_empty_true (s : string) : is_empty s = true -> s = "".
Proof. destruct s; [reflexivity | discriminate]. Qed.

Lemma is_empty_false (s : string) : is_empty s = false <-> s <> "".
Proof. destruct s; simpl; split; congruence. Qed.

Lemma forallb_string_app p (a b : string) :
  forallb_string p (a ++ b) = forallb_string p a && forallb_string p b.
Proof.
  induction a as [|c a IH]; simpl; [reflexivity|].
  now rewrite IH, andb_assoc.
Qed.

Lemma forallb_string_impl (p q : ascii -> bool) (s : string) :
  (forall c, p c = true -> q c = true) ->
  forallb_string p s = true -> forallb_string q s = true.
Proof.
  intros Hpq. induction s as [|c s IH]; simpl; [reflexivity|].
  intros H. apply andb_true_iff in H as [Hc Hs].
  now rewrite (Hpq _ Hc), IH.
Qed.

Lemma no_terminator_no_lf (s : string) :
  no_terminator s = true -> no_lf s = true.
Proof.
  apply forallb_string_impl. intros c. unfold is_terminator.
  destruct (is_lf c); simpl; [discriminate | reflexivity].
Qed.

(** *** [rstrip] *)

Lemma rstrip_nl_no_lf (s : string) : no_lf s = true -> rstrip_nl s = s.
Proof.
  unfold no_lf. induction s as [|c s IH]; simpl; [reflexivity|].
  intros H. apply andb_true_iff in H as [Hc Hs].
  rewrite (IH Hs). apply negb_true_iff in Hc. rewrite Hc.
  destruct s; reflexivity.
Qed.

Lemma rstrip_nl_app_nl (s : string) : rstrip_nl (s ++ nl) = rstrip_nl s.
Proof.
  induction s as [|c s IH]; simpl; [reflexivity|].
  now rewrite IH.
Qed.

Lemma rstrip_nl_line (s : string) :
  no_lf s = true -> rstrip_nl (s ++ nl) = s.
Proof. intros H. now rewrite rstrip_nl_app_nl, rstrip_nl_no_lf. Qed.

(** *** Universal newlines *)

Lemma universal_newlines_no_cr (s : string) :
  no_cr s = true -> universal_newlines s = s.
Proof.
  unfold no_cr. induction s as [|c s IH]; simpl; [reflexivity|].
  intros H. apply andb_true_iff in H as [Hc Hs].
  apply negb_true_iff in Hc. now rewrite Hc, IH.
Qed.

Lemma no_terminator_no_cr (s : string) :
  no_terminator s = true -> no_cr s = true.
Proof.
  apply forallb_string_impl. intros c. unfold is_terminator.
  destruct (is_cr c); [rewrite orb_true_r; discriminate | reflexivity].
Qed.

(** Reading back what was stored gives the text written, on either
    platform, when that text holds no carriage return. *)
Lemma universal_newlines_store (linesep s : string) :
  is_linesep linesep -> no_cr s = true ->
  universal_newlines (store_newlines linesep s) = s.
Proof.
  intros Hsep. unfold no_cr.
  induction s as [|c s IH]; [reflexivity|].
  simpl. intros H. apply andb_true_iff in H as [Hc Hs].
  apply negb_true_iff in Hc. specialize (IH Hs).
  destruct (is_lf c) eqn:Hlf.
  - apply Ascii.eqb_eq in Hlf. subst c.
    destruct Hsep as [-> | ->].
    + change (nl ++ store_newlines nl s)
        with (String LF (store_newlines nl s)).
      change (universal_newlines (String LF (store_newlines nl s)))
        with (String LF (universal_newlines (store_newlines nl s))).
      now rewrite IH.
    + change (crlf ++ store_newlines crlf s)
        with (String CR (String LF (store_newlines crlf s))).
      change (universal_newlines
                (String CR (String LF (store_newlines crlf s))))
        with (String LF (universal_newlines (store_newlines crlf s))).
      now rewrite IH.
  - simpl. now rewrite Hc, IH.
Qed.

(** The translation never lets a carriage return through. *)
Lemma universal_newlines_two (s : string) :
  no_cr (universal_newlines s) = true /\
  forall c, no_cr (universal_newlines (String c s)) = true.
Proof.
  induction s as [|b s [IH1 IH2]].
  - split; [reflexivity|]. intros c. unfold no_cr. simpl.
    destruct (is_cr c) eqn:Hc; simpl; [reflexivity|]. now rewrite Hc.
  - split; [apply IH2|]. intros c.
    change (universal_newlines (String c (String b s))) with
      (if is_cr c
       then String LF (if is_lf b then universal_newlines s
                       else universal_newlines (String b s))
       else String c (universal_newlines (String b s))).
    destruct (is_cr c) eqn:Hc.
    + destruct (is_lf b); unfold no_cr; simpl; [apply IH1 | apply IH2].
    + unfold no_cr at 1. simpl. rewrite Hc. simpl. apply IH2.
Qed.

Lemma universal_newlines_clean (s : string) :
  no_cr (universal_newlines s) = true.
Proof. apply universal_newlines_two. Qed.

(** Appending a line feed to a file appends one to its decoded text, unless
    the file ended in a carriage return, which then forms a single
    terminator with it. *)
Lemma universal_newlines_app_nl (s : string) :
  universal_newlines (s ++ nl) = universal_newlines s ++ nl \/
  universal_newlines (s ++ nl) = universal_newlines s.
Proof.
  assert (H : (universal_newlines (s ++ nl) = universal_newlines s ++ nl \/
               universal_newlines (s ++ nl) = universal_newlines s) /\
              forall c,
                universal_newlines (String c s ++ nl)
                = universal_newlines (String c s) ++ nl \/
                universal_newlines (String c s ++ nl)
                = universal_newlines (String c s)).
  { induction s as [|b s [IH1 IH2]].
    - split; [left; reflexivity|]. intros c. simpl.
      destruct (is_cr c); [right | left]; reflexivity.
    - split; [apply IH2|]. intros c.
      change (universal_newlines (String c (String b s) ++ nl)) with
        (if is_cr c
         then String LF (if is_lf b then universal_newlines (s ++ nl)
                         else universal_newlines (String b s ++ nl))
         else String c (universal_newlines (String b s ++ nl))).
      change (universal_newlines (String c (String b s))) with
        (if is_cr c
         then String LF (if is_lf b then universal_newlines s
                         else universal_newlines (String b s))
         else String c (universal_newlines (String b s))).
      destruct (is_cr c).
      + destruct (is_lf b).
        * destruct IH1 as [E|E]; rewrite E; [left | right]; reflexivity.
        * destruct (IH2 b) as [E|E]; rewrite E; [left | right]; reflexivity.
      + destruct (IH2 b) as [E|E]; rewrite E; [left | right]; reflexivity. }
  apply H.
Qed.

(** *** The file iterator *)

Lemma readlines_line (l rest : string) :
  no_lf l = true ->
  readlines ((l ++ nl) ++ rest) = (l ++ nl) :: readlines rest.
Proof.
  unfold no_lf. induction l as [|c l IH]; simpl; [reflexivity|].
  intros H. apply andb_true_iff in H as [Hc Hl].
  apply negb_true_iff in Hc. rewrite Hc. now rewrite (IH Hl).
Qed.

(** Appending a line feed either adds an empty line or terminates the last
    line. *)
Lemma readlines_app_nl (x : string) :
  readlines (x ++ nl) = (readlines x ++ [nl])%list \/
  exists init l,
    readlines x = (init ++ [l])%list /\
    readlines (x ++ nl) = (init ++ [(l ++ nl)%string])%list.
Proof.
  induction x as [|c x IH]; [left; reflexivity|].
  simpl. destruct (is_lf c).
  - destruct IH as [E | (init & l & E1 & E2)].
    + left. now rewrite E.
    + right. exists (nl :: init), l. now rewrite E1, E2.
  - destruct IH as [E | (init & l & E1 & E2)].
    + rewrite E. destruct (readlines x) as [|l0 ls].
      * right. exists [], (String c ""). split; reflexivity.
      * left. reflexivity.
    + rewrite E1, E2. right. destruct init as [|i0 init].
      * exists [], (String c l). split; reflexivity.
      * exists (String c i0 :: init), l. split; reflexivity.
Qed.

(** Every line the iterator yields is non-empty. *)
Lemma readlines_nonempty (x : string) :
  Forall (fun l => l <> "") (readlines x).
Proof.
  induction x as [|c x IH]; simpl; [constructor|].
  destruct (is_lf c).
  - constructor; [discriminate | assumption].
  - destruct (readlines x) as [|l ls].
    + constructor; [discriminate | constructor].
    + inversion IH; subst. constructor; [discriminate | assumption].
Qed.

Lemma readlines_forallb p (x : string) :
  forallb_string p x = true ->
  Forall (fun l => forallb_string p l = true) (readlines x).
Proof.
  induction x as [|c x IH]; simpl; [constructor|].
  intros H. apply andb_true_iff in H as [Hc Hx].
  specialize (IH Hx). destruct (is_lf c) eqn:E.
  - apply Ascii.eqb_eq in E. subst c.
    constructor; [unfold nl; simpl; now rewrite Hc | assumption].
  - destruct (readlines x) as [|l ls].
    + constructor; [simpl; now rewrite Hc | constructor].
    + inversion IH; subst. constructor; [|assumption].
      simpl. now rewrite Hc, H1.
Qed.

End StringFacts.

(** ** The reader *)

Section ReaderFacts.

Local Open Scope list_scope.

Lemma nonempty_true {A} (l : list A) : nonempty l = true <-> l <> [].
Proof. destruct l; simpl; split; congruence. Qed.

(** The loop of the source and the grouping of the design document agree,
    from any state of the loop. *)
Lemma fold_step_group (lines : list string) :
  forall sentences current,
    finish (fold_left step lines (sentences, current))
    = sentences ++ group_lines current lines.
Proof.
  induction lines as [|line lines IH]; intros sentences current; simpl.
  - destruct (nonempty current); [reflexivity | now rewrite app_nil_r].
  - rewrite is_empty_eqb. destruct (is_empty (rstrip_nl line)).
    + destruct current as [|l0 current]; simpl; rewrite IH; [reflexivity|].
      now rewrite <- app_assoc.
    + apply IH.
Qed.

Lemma read_lines_group (lines : list string) :
  read_lines lines = group_lines [] lines.
Proof. unfold read_lines. now rewrite fold_step_group. Qed.

Lemma group_lines_concat (lines : list string) :
  forall current,
    concat (group_lines current lines) = current ++ content_lines lines.
Proof.
  unfold content_lines.
  induction lines as [|line lines IH]; intros current; simpl.
  - destruct current; simpl; [reflexivity | now rewrite app_nil_r].
  - destruct (is_empty (rstrip_nl line)); simpl.
    + destruct current; simpl; rewrite IH; reflexivity.
    + rewrite IH. now rewrite <- app_assoc.
Qed.

Lemma group_lines_nonempty (lines : list string) :
  forall current, Forall (fun s => s <> []) (group_lines current lines).
Proof.
  induction lines as [|line lines IH]; intros current; simpl.
  - destruct current; simpl; constructor; [discriminate | constructor].
  - destruct (is_empty (rstrip_nl line)); [|apply IH].
    destruct current; simpl; [apply IH|].
    constructor; [discriminate | apply IH].
Qed.

(** The sentences depend on the lines only through their stripped form. *)
Lemma group_lines_ext (l1 : list string) :
  forall l2 current,
    map rstrip_nl l1 = map rstrip_nl l2 ->
    group_lines current l1 = group_lines current l2.
Proof.
  induction l1 as [|a l1 IH]; intros [|b l2] current E; simpl in E;
    try discriminate; [reflexivity|].
  injection E as Eab E. simpl. rewrite Eab.
  destruct (is_empty (rstrip_nl b)).
  - destruct (nonempty current); [f_equal|]; now apply IH.
  - now apply IH.
Qed.

(** A blank line at the end of the input changes nothing. *)
Lemma group_lines_blank_end (lines : list string) (blank : string) :
  is_empty (rstrip_nl blank) = true ->
  forall current,
    group_lines current (lines ++ [blank]) = group_lines current lines.
Proof.
  intros Hb. induction lines as [|line lines IH]; intros current; simpl.
  - rewrite Hb. destruct (nonempty current); reflexivity.
  - destruct (is_empty (rstrip_nl line)).
    + destruct (nonempty current); now rewrite IH.
    + apply IH.
Qed.

Lemma file_lines_no_cr (content line : string) :
  In line (file_lines content) -> no_cr line = true.
Proof.
  intros Hin. unfold file_lines in Hin.
  pose proof (readlines_forallb (fun c => negb (is_cr c))
                (universal_newlines content)
                (universal_newlines_clean content)) as H.
  rewrite Forall_forall in H. now apply H.
Qed.

Lemma content_line_in_sentence (lines : list string) (line : string) :
  In line lines -> rstrip_nl line <> EmptyString ->
  In (rstrip_nl line) (concat (read_lines lines)).
Proof.
  intros Hin Hne. rewrite read_lines_group, group_lines_concat. simpl.
  unfold content_lines. apply filter_In. split.
  - now apply in_map.
  - apply negb_true_iff. now apply is_empty_false.
Qed.

End ReaderFacts.

(** C4. The reader handles the lines of a file in order: a line that is
    empty once its trailing line feed is removed closes the sentence being
    accumulated (kept if non-empty) and resets the accumulator, any other
    line joins that sentence, and the end of the input flushes a non-empty
    accumulator; so the result is the grouping of the lines at the blank
    ones, and the sentences, put end to end, are the non-empty lines of the
    file, each once and in file order. *)
Theorem read_conllu_sentences_groups_lines (content : string) :
  (forall sentences current line,
      rstrip_nl line = EmptyString ->
      step (sentences, current) line
      = if nonempty current then (sentences ++ [current], [])
        else (sentences, current)) /\
  (forall sentences current line,
      rstrip_nl line <> EmptyString ->
      step (sentences, current) line
      = (sentences, current ++ [rstrip_nl line])) /\
  read_conllu_sentences content
  = finish (fold_left step (file_lines content) ([], [])) /\
  read_conllu_sentences content = group_lines [] (file_lines content) /\
  concat (read_conllu_sentences content) = content_lines (file_lines content).
Proof.
  split; [|split; [|split; [reflexivity|]]].
  - intros sentences current line E. unfold step. now rewrite E.
  - intros sentences current line E. unfold step.
    apply String.eqb_neq in E. now rewrite E.
  - unfold read_conllu_sentences. rewrite read_lines_group. split.
    + reflexivity.
    + now rewrite group_lines_concat.
Qed.

(** C8. No sentence returned by the reader is empty, whatever the input:
    leading blank lines and runs of blank lines produce nothing. *)
Theorem read_conllu_sentences_nonempty (content : string) :
  Forall (fun s : sentence => s <> []) (read_conllu_sentences content).
Proof.
  unfold read_conllu_sentences. rewrite read_lines_group.
  apply group_lines_nonempty.
Qed.

(** C9. A trailing empty line does not change what the reader returns: the
    file with a line feed appended yields the same sentences, hence the same
    number of them; and so does the list of lines with a blank line added. *)
Theorem trailing_blank_line_ignored (content : string) :
  read_conllu_sentences (content ++ nl) = read_conllu_sentences content /\
  length (read_conllu_sentences (content ++ nl))
  = length (read_conllu_sentences content) /\
  forall lines, read_lines (lines ++ [nl]) = read_lines lines.
Proof.
  assert (Hlines : forall lines, read_lines (lines ++ [nl]) = read_lines lines).
  { intros lines. rewrite !read_lines_group.
    now apply group_lines_blank_end. }
  assert (Hfile : read_conllu_sentences (content ++ nl)
                  = read_conllu_sentences content).
  { unfold read_conllu_sentences, file_lines.
    destruct (universal_newlines_app_nl content) as [E|E]; rewrite E;
      [|reflexivity].
    destruct (readlines_app_nl (universal_newlines content))
      as [E'|(init & l & E1 & E2)].
    - rewrite E'. apply Hlines.
    - rewrite E1, E2, !read_lines_group. apply group_lines_ext.
      rewrite !map_app. simpl. now rewrite rstrip_nl_app_nl. }
  split; [exact Hfile|]. split; [now rewrite Hfile | exact Hlines].
Qed.

(** ** The writer *)

Section WriterFacts.

Local Open Scope string_scope.

Lemma block_cons (line : string) (s : sentence) :
  block (line :: s) = (line ++ nl) ++ block s.
Proof.
  unfold block. simpl. destruct s as [|l s]; simpl.
  - now rewrite append_empty_r.
  - reflexivity.
Qed.

Lemma render_cons (s : sentence) (rest : list sentence) :
  rest <> [] -> render (s :: rest) = block s ++ nl ++ render rest.
Proof. intros H. destruct rest; [now elim H | reflexivity]. Qed.

Lemma write_lines_block (s : sentence) :
  forall buf, write_lines buf s = buf ++ block s.
Proof.
  unfold write_lines.
  induction s as [|line s IH]; intros buf; simpl.
  - now rewrite append_empty_r.
  - fold (block (line :: s)). rewrite IH, block_cons.
    now rewrite append_assoc.
Qed.

(** The loop over [enumerate(sentences)], started at index [k] with [rest]
    still to write, for a list of [total] sentences. *)
Lemma write_loop_render (total : nat) (rest : list sentence) :
  forall k buf,
    total = (k + length rest)%nat ->
    fold_left
      (fun buf '(i, s) =>
         let buf := write_lines buf s in
         if (Z.of_nat i <? Z.of_nat total - 1)%Z then buf ++ nl else buf)
      (combine (seq k (length rest)) rest) buf
    = buf ++ render rest.
Proof.
  induction rest as [|s rest IH]; intros k buf Hk; simpl.
  - now rewrite append_empty_r.
  - simpl in Hk. rewrite write_lines_block.
    destruct rest as [|s' rest].
    + simpl. replace (Z.of_nat k <? Z.of_nat total - 1)%Z with false.
      * reflexivity.
      * symmetry. apply Z.ltb_ge. simpl in Hk. lia.
    + replace (Z.of_nat k <? Z.of_nat total - 1)%Z with true.
      * rewrite IH by (simpl in *; lia).
        rewrite (@render_cons s (s' :: rest)) by discriminate.
        now rewrite !append_assoc.
      * symmetry. apply Z.ltb_lt. simpl in Hk. lia.
Qed.

End WriterFacts.

Lemma write_conllu_sentences_render (sentences : list sentence) :
  write_conllu_sentences sentences = render sentences.
Proof.
  unfold write_conllu_sentences, enumerate.
  exact (write_loop_render (total := length sentences)
           sentences 0 EmptyString eq_refl).
Qed.

(** C5. The writer emits every line of every sentence as it is, in order,
    each followed by one line feed, with one empty line between consecutive
    sentences and nothing after the last sentence: the text written is the
    blocks of the sentences joined by a single line feed. *)
Theorem write_conllu_sentences_format (sentences : list sentence) :
  write_conllu_sentences sentences = render sentences /\
  render sentences = String.concat nl (map block sentences) /\
  (forall s, block s = String.concat EmptyString (map with_nl s)) /\
  (forall line, with_nl line = (line ++ nl)%string).
Proof.
  split; [apply write_conllu_sentences_render | repeat split; reflexivity].
Qed.

(** ** Writing, then reading *)

Section RoundTrip.

Local Open Scope string_scope.

Lemma readlines_block (s : sentence) (rest : string) :
  Forall clean_line s ->
  readlines (block s ++ rest)
  = (map with_nl s ++ readlines rest)%list.
Proof.
  induction 1 as [|line s [_ Hline] _ IH]; [reflexivity|].
  rewrite block_cons, append_assoc.
  rewrite readlines_line by now apply no_terminator_no_lf.
  simpl. now rewrite IH.
Qed.

Lemma group_lines_block (s : sentence) (rest : list string) :
  Forall clean_line s ->
  forall current,
    group_lines current (map with_nl s ++ rest)%list
    = group_lines (current ++ s)%list rest.
Proof.
  induction 1 as [|line s [Hne Hline] _ IH]; intros current; simpl.
  - now rewrite app_nil_r.
  - assert (E : rstrip_nl (with_nl line) = line)
      by (apply rstrip_nl_line; now apply no_terminator_no_lf).
    rewrite !E. apply is_empty_false in Hne. rewrite Hne, IH.
    now rewrite <- app_assoc.
Qed.

Lemma no_cr_block (s : sentence) :
  Forall clean_line s -> no_cr (block s) = true.
Proof.
  induction 1 as [|line s [_ Hline] _ IH]; [reflexivity|].
  pose proof (no_terminator_no_cr _ Hline) as Hcr.
  rewrite block_cons. unfold no_cr in *.
  now rewrite !forallb_string_app, IH, Hcr.
Qed.

Lemma no_cr_render (sentences : list sentence) :
  Forall clean_sentence sentences -> no_cr (render sentences) = true.
Proof.
  induction 1 as [|s rest [_ Hs] _ IH]; [reflexivity|].
  destruct rest as [|s' rest].
  - now apply no_cr_block.
  - pose proof (no_cr_block Hs) as Hcr.
    rewrite (@render_cons s (s' :: rest)) by discriminate. unfold no_cr in *.
    now rewrite !forallb_string_app, IH, Hcr.
Qed.

Lemma group_render (sentences : list sentence) :
  Forall clean_sentence sentences ->
  forall current,
    group_lines current (readlines (render sentences))
    = match sentences with
      | [] => if nonempty current then [current] else []
      | s :: rest => (current ++ s)%list :: rest
      end.
Proof.
  induction 1 as [|s rest [Hne Hs] _ IH]; intros current; [reflexivity|].
  destruct rest as [|s' rest].
  - change (render [s]) with (block s).
    rewrite <- (append_empty_r (block s)), readlines_block by assumption.
    simpl. rewrite group_lines_block by assumption. simpl.
    destruct (current ++ s)%list eqn:E; [|reflexivity].
    apply app_eq_nil in E as [_ E]. contradiction.
  - rewrite (@render_cons s (s' :: rest)) by discriminate.
    rewrite readlines_block by assumption.
    rewrite group_lines_block by assumption.
    simpl. rewrite IH. simpl.
    destruct (current ++ s)%list eqn:E; [|reflexivity].
    apply app_eq_nil in E as [_ E]. contradiction.
Qed.

End RoundTrip.

Lemma read_written (linesep : string) (partition : list sentence) :
  is_linesep linesep ->
  Forall clean_sentence partition ->
  read_conllu_sentences
    (store_newlines linesep (write_conllu_sentences partition))
  = partition.
Proof.
  intros Hsep Hclean. rewrite write_conllu_sentences_render.
  unfold read_conllu_sentences, file_lines.
  rewrite (@universal_newlines_store linesep _ Hsep (no_cr_render Hclean)).
  rewrite read_lines_group, (group_render Hclean).
  destruct partition; reflexivity.
Qed.

Lemma read_written_text (partition : list sentence) :
  Forall clean_sentence partition ->
  read_conllu_sentences (write_conllu_sentences partition) = partition.
Proof.
  intros Hclean. rewrite write_conllu_sentences_render.
  unfold read_conllu_sentences, file_lines.
  rewrite (universal_newlines_no_cr _ (no_cr_render Hclean)).
  rewrite read_lines_group, (group_render Hclean).
  destruct partition; reflexivity.
Qed.

(** C2. A partition whose sentences are non-empty lists of non-empty lines
    free of line terminators (line feed and carriage return, the characters
    text-mode reading ends a line at) is read back from the file written for
    it exactly as it was: same sentences, same order, same lines; and this
    whether the platform stores a line feed as it is or as CR LF. *)
Theorem write_then_read (partition : list sentence) :
  Forall clean_sentence partition ->
  read_conllu_sentences (write_conllu_sentences partition) = partition /\
  forall linesep,
    is_linesep linesep ->
    read_conllu_sentences
      (store_newlines linesep (write_conllu_sentences partition))
    = partition.
Proof.
  intros Hclean. split.
  - now apply read_written_text.
  - intros linesep Hsep. now apply read_written.
Qed.

Lemma write_then_read_witness :
  read_conllu_sentences
    (write_conllu_sentences [["# text = a b"; "1 a"; "2 b"]; ["1 c"]])%string
  = [["# text = a b"; "1 a"; "2 b"]; ["1 c"]]%string.
Proof.
  apply write_then_read.
  repeat constructor; discriminate.
Defined.

(** ** What the reader hands to the rest of the script *)

Section ReaderOutput.

Local Open Scope string_scope.

Lemma forallb_string_rstrip p (s : string) :
  forallb_string p s = true -> forallb_string p (rstrip_nl s) = true.
Proof.
  induction s as [|c s IH]; simpl; [reflexivity|].
  intros H. apply andb_true_iff in H as [Hc Hs]. specialize (IH Hs).
  destruct (rstrip_nl s).
  - destruct (is_lf c); simpl; [reflexivity | now rewrite Hc].
  - simpl in *. now rewrite Hc, IH.
Qed.

(** A line of the iterator holds a line feed at its end only. *)
Lemma readlines_rstrip_no_lf (x : string) :
  Forall (fun l => no_lf (rstrip_nl l) = true) (readlines x).
Proof.
  unfold no_lf.
  induction x as [|c x IH]; simpl; [constructor|].
  destruct (is_lf c) eqn:Hc.
  - constructor; [reflexivity | assumption].
  - destruct (readlines x) as [|l ls].
    + constructor; [simpl; rewrite Hc; simpl; now rewrite Hc | constructor].
    + inversion IH as [|? ? Hl Hls]; subst. constructor; [|assumption].
      simpl. destruct (rstrip_nl l); simpl in *; rewrite ?Hc; simpl;
        rewrite ?Hc; simpl; [reflexivity | assumption].
Qed.

Lemma content_lines_clean (content : string) :
  Forall clean_line (content_lines (file_lines content)).
Proof.
  apply Forall_forall. intros l Hin. unfold content_lines in Hin.
  apply filter_In in Hin as [Hin Hne].
  apply in_map_iff in Hin as (line & <- & Hin).
  split.
  - apply is_empty_false. now apply negb_true_iff.
  - pose proof (readlines_rstrip_no_lf (universal_newlines content)) as Hlf.
    rewrite Forall_forall in Hlf. specialize (Hlf _ Hin).
    pose proof (forallb_string_rstrip _ _ (file_lines_no_cr _ _ Hin)) as Hcr.
    unfold no_terminator, no_lf in *.
    clear - Hlf Hcr. induction (rstrip_nl line) as [|c s IH]; [reflexivity|].
    simpl in *. apply andb_true_iff in Hlf as [Hl1 Hl2].
    apply andb_true_iff in Hcr as [Hc1 Hc2].
    rewrite (IH Hl2 Hc2). unfold is_terminator.
    apply negb_true_iff in Hl1, Hc1. now rewrite Hl1, Hc1.
Qed.

(** The sentences of the reader satisfy the hypothesis of the round trip. *)
Lemma read_conllu_sentences_clean (content : string) :
  Forall clean_sentence (read_conllu_sentences content).
Proof.
  pose proof (group_lines_nonempty (file_lines content) []) as Hne.
  pose proof (content_lines_clean content) as Hcl.
  pose proof (group_lines_concat (file_lines content) []) as Hcat.
  simpl in Hcat. rewrite <- Hcat in Hcl.
  unfold read_conllu_sentences. rewrite read_lines_group.
  rewrite Forall_forall in *.
  intros s Hs. split; [now apply Hne|].
  apply Forall_forall. intros l Hl. apply Hcl.
  apply in_concat. now exists s.
Qed.

(** X5. Writing the sentences read from a file and reading the text written
    gives the same sentences again: one pass through the reader and the
    writer brings any file to a form that further passes leave alone. *)
Lemma read_write_read (content : string) :
  read_conllu_sentences
    (write_conllu_sentences (read_conllu_sentences content))
  = read_conllu_sentences content.
Proof.
  apply read_written_text, read_conllu_sentences_clean.
Qed.

End ReaderOutput.

(** ** Files put end to end *)

Section Concatenation.

Local Open Scope string_scope.

(** The decoding of a text that ends in a line feed does not depend on what
    follows it. *)
Lemma universal_newlines_cut (a b : string) :
  universal_newlines ((a ++ nl) ++ b)
  = universal_newlines (a ++ nl) ++ universal_newlines b.
Proof.
  assert (H : universal_newlines ((a ++ nl) ++ b)
              = universal_newlines (a ++ nl) ++ universal_newlines b /\
              forall c,
                universal_newlines ((String c a ++ nl) ++ b)
                = universal_newlines (String c a ++ nl)
                  ++ universal_newlines b).
  { induction a as [|x a [IH1 IH2]].
    - split; [reflexivity|]. intros c. simpl.
      destruct (is_cr c); reflexivity.
    - split; [apply IH2|]. intros c.
      change (universal_newlines ((String c (String x a) ++ nl) ++ b)) with
        (if is_cr c
         then String LF (if is_lf x
                         then universal_newlines ((a ++ nl) ++ b)
                         else universal_newlines ((String x a ++ nl) ++ b))
         else String c (universal_newlines ((String x a ++ nl) ++ b))).
      change (universal_newlines (String c (String x a) ++ nl)) with
        (if is_cr c
         then String LF (if is_lf x then universal_newlines (a ++ nl)
                         else universal_newlines (String x a ++ nl))
         else String c (universal_newlines (String x a ++ nl))).
      destruct (is_cr c).
      + destruct (is_lf x); [rewrite IH1 | rewrite (IH2 x)]; reflexivity.
      + rewrite (IH2 x). reflexivity. }
  apply H.
Qed.

(** The decoding of a text that ends in a line feed ends in a line feed. *)
Lemma universal_newlines_terminated (a : string) :
  exists t, universal_newlines (a ++ nl) = t ++ nl.
Proof.
  assert (H : (exists t, universal_newlines (a ++ nl) = t ++ nl) /\
              forall c, exists t,
                universal_newlines (String c a ++ nl) = t ++ nl).
  { induction a as [|x a [IH1 IH2]].
    - split; [now exists ""|]. intros c. simpl.
      destruct (is_cr c); [now exists "" | now exists (String c "")].
    - split; [apply IH2|]. intros c.
      change (universal_newlines (String c (String x a) ++ nl)) with
        (if is_cr c
         then String LF (if is_lf x then universal_newlines (a ++ nl)
                         else universal_newlines (String x a ++ nl))
         else String c (universal_newlines (String x a ++ nl))).
      destruct (is_cr c).
      + destruct (is_lf x).
        * destruct IH1 as [t ->]. now exists (String LF t).
        * destruct (IH2 x) as [t ->]. now exists (String LF t).
      + destruct (IH2 x) as [t ->]. now exists (String c t). }
  apply H.
Qed.

Lemma readlines_nil (x : string) : readlines x = [] -> x = "".
Proof.
  destruct x as [|c x]; [reflexivity|]. simpl.
  destruct (is_lf c); [discriminate|].
  destruct (readlines x); discriminate.
Qed.

(** The iterator cuts a text after a line feed whatever follows. *)
Lemma readlines_cut (t y : string) :
  readlines ((t ++ nl) ++ y) = (readlines (t ++ nl) ++ readlines y)%list.
Proof.
  induction t as [|c t IH]; [reflexivity|].
  simpl. destruct (is_lf c).
  - now rewrite IH.
  - rewrite IH. destruct (readlines (t ++ nl)) as [|l ls] eqn:E.
    + apply readlines_nil in E. destruct t; discriminate.
    + reflexivity.
Qed.

(** A blank line between two runs of lines separates their sentences. *)
Lemma group_lines_blank_between (l1 l2 : list string) (blank : string) :
  is_empty (rstrip_nl blank) = true ->
  forall current,
    group_lines current (l1 ++ blank :: l2)%list
    = (group_lines current l1 ++ group_lines [] l2)%list.
Proof.
  intros Hb. induction l1 as [|line l1 IH]; intros current; simpl.
  - rewrite Hb. destruct (nonempty current); reflexivity.
  - destruct (is_empty (rstrip_nl line)).
    + destruct (nonempty current); now rewrite IH.
    + apply IH.
Qed.

(** A line feed at the end of a file changes nothing. *)
Lemma read_app_nl (content : string) :
  read_conllu_sentences (content ++ nl) = read_conllu_sentences content.
Proof.
  unfold read_conllu_sentences, file_lines.
  destruct (universal_newlines_app_nl content) as [E|E]; rewrite E;
    [|reflexivity].
  destruct (readlines_app_nl (universal_newlines content))
    as [E'|(init & l & E1 & E2)].
  - rewrite E', !read_lines_group. now apply group_lines_blank_end.
  - rewrite E1, E2, !read_lines_group. apply group_lines_ext.
    rewrite !map_app. simpl. now rewrite rstrip_nl_app_nl.
Qed.

Lemma read_blank_line_between (first second : string) :
  read_conllu_sentences (first ++ nl ++ nl ++ second)
  = (read_conllu_sentences first ++ read_conllu_sentences second)%list.
Proof.
  rewrite <- (read_app_nl first).
  unfold read_conllu_sentences, file_lines.
  rewrite <- (append_assoc first nl (nl ++ second)).
  rewrite universal_newlines_cut.
  destruct (universal_newlines_terminated first) as [t ->].
  change (universal_newlines (nl ++ second))
    with (nl ++ universal_newlines second).
  rewrite readlines_cut.
  change (readlines (nl ++ universal_newlines second))
    with (nl :: readlines (universal_newlines second)).
  rewrite !read_lines_group.
  now apply group_lines_blank_between.
Qed.

End Concatenation.

(** ** Blank lines and whitespace *)

Section Whitespace.

Local Open Scope string_scope.

Lemma blank_space_no_lf (w : string) :
  forallb_string is_blank_space w = true -> no_lf w = true.
Proof.
  apply forallb_string_impl. intros c. unfold is_blank_space, is_lf.
  destruct (Ascii.eqb_spec c " "%char) as [->|_]; [reflexivity|].
  destruct (Ascii.eqb_spec c "009"%char) as [->|_]; [reflexivity|].
  discriminate.
Qed.

End Whitespace.

(** C10, as stated, fails: in a file whose second line holds a carriage
    return only (the empty line of a file with CRLF line ends), that line is
    whitespace other than a line feed, yet text-mode reading turns its
    carriage return and line feed into a single line feed, the loop sees an
    empty line, and the line closes the sentence instead of joining it. *)
Lemma carriage_return_line_is_boundary :
  let content := ("a" ++ nl ++ String CR nl ++ "b" ++ nl)%string in
  In (String CR nl) (readlines content) /\
  rstrip_nl (String CR nl) = String CR EmptyString /\
  forallb_string is_other_space (rstrip_nl (String CR nl)) = true /\
  read_conllu_sentences content = [["a"]; ["b"]]%string /\
  ~ In (rstrip_nl (String CR nl)) (concat (read_conllu_sentences content)).
Proof.
  cbv zeta. repeat split; try reflexivity.
  - right. left. reflexivity.
  - vm_compute. intros [H|[H|[]]]; discriminate.
Qed.

(** ** Where a sentence ends *)

Section Boundaries.

Local Open Scope string_scope.

(** A sentence under way is the head of the next sentence returned: the
    lines that follow can only be added at its end. *)
Lemma group_lines_head (lines : list string) :
  forall current,
    current <> [] ->
    exists more later,
      group_lines current lines = ((current ++ more) :: later)%list.
Proof.
  induction lines as [|line lines IH]; intros current Hne; simpl.
  - exists [], []. destruct current; [now elim Hne|].
    simpl. now rewrite app_nil_r.
  - destruct (is_empty (rstrip_nl line)).
    + exists [], (group_lines [] lines). destruct current; [now elim Hne|].
      simpl. now rewrite app_nil_r.
    + destruct (IH (current ++ [rstrip_nl line])%list) as (more & later & E).
      { destruct current; discriminate. }
      exists (rstrip_nl line :: more), later.
      rewrite E, <- app_assoc. reflexivity.
Qed.

(** Without a blank line nothing is closed before the end of the input. *)
Lemma group_lines_no_blank (lines : list string) :
  (forall l, In l lines -> rstrip_nl l <> "") ->
  forall current,
    group_lines current lines
    = if nonempty (current ++ map rstrip_nl lines)
      then [(current ++ map rstrip_nl lines)%list] else [].
Proof.
  induction lines as [|line lines IH]; intros H current; simpl.
  - now rewrite app_nil_r.
  - assert (Hline : is_empty (rstrip_nl line) = false)
      by (apply is_empty_false, H; now left).
    rewrite Hline, IH by (intros l Hl; apply H; now right).
    now rewrite <- app_assoc.
Qed.

(** What is returned, from the loop state reached in the middle of the
    input. *)
Lemma read_lines_from (before after : list string)
    (sentences : list sentence) (current : sentence) :
  fold_left step before ([], []) = (sentences, current) ->
  read_lines (before ++ after)
  = (sentences ++ group_lines current after)%list.
Proof.
  intros E. unfold read_lines.
  now rewrite fold_left_app, E, fold_step_group.
Qed.

(** A carriage return followed by a line feed is decoded as one line feed,
    whatever stands before and after. *)
Lemma universal_newlines_crlf (a b : string) :
  universal_newlines (a ++ crlf ++ b)
  = universal_newlines a ++ nl ++ universal_newlines b.
Proof.
  assert (H : universal_newlines (a ++ crlf ++ b)
              = universal_newlines a ++ nl ++ universal_newlines b /\
              forall c,
                universal_newlines (String c a ++ crlf ++ b)
                = universal_newlines (String c a) ++ nl
                  ++ universal_newlines b).
  { induction a as [|x a [IH1 IH2]].
    - split; [reflexivity|]. intros c. simpl.
      destruct (is_cr c); reflexivity.
    - split; [apply IH2|]. intros c.
      change (universal_newlines (String c (String x a) ++ crlf ++ b)) with
        (if is_cr c
         then String LF (if is_lf x
                         then universal_newlines (a ++ crlf ++ b)
                         else universal_newlines (String x a ++ crlf ++ b))
         else String c (universal_newlines (String x a ++ crlf ++ b))).
      change (universal_newlines (String c (String x a))) with
        (if is_cr c
         then String LF (if is_lf x then universal_newlines a
                         else universal_newlines (String x a))
         else String c (universal_newlines (String x a))).
      destruct (is_cr c).
      + destruct (is_lf x); [rewrite IH1 | rewrite (IH2 x)]; reflexivity.
      + rewrite (IH2 x). reflexivity. }
  apply H.
Qed.

(** A line feed ending the text changes nothing for the loop. *)
Lemma read_lines_terminated (x : string) :
  read_lines (readlines (x ++ nl)) = read_lines (readlines x).
Proof.
  destruct (readlines_app_nl x) as [E|(init & l & E1 & E2)].
  - rewrite E, !read_lines_group. now apply group_lines_blank_end.
  - rewrite E1, E2, !read_lines_group. apply group_lines_ext.
    rewrite !map_app. simpl. now rewrite rstrip_nl_app_nl.
Qed.

(** The line between two CRLF line ends separates the sentences before it
    from those after it. *)
Lemma read_crlf_line_between (first second : string) :
  read_conllu_sentences (first ++ crlf ++ crlf ++ second)
  = (read_conllu_sentences first ++ read_conllu_sentences second)%list.
Proof.
  unfold read_conllu_sentences, file_lines.
  rewrite universal_newlines_crlf.
  change (universal_newlines (crlf ++ second))
    with (nl ++ universal_newlines second).
  rewrite <- append_assoc, readlines_cut.
  change (readlines (nl ++ universal_newlines second))
    with (nl :: readlines (universal_newlines second)).
  rewrite read_lines_group, group_lines_blank_between by reflexivity.
  rewrite <- !read_lines_group. now rewrite read_lines_terminated.
Qed.

(** So does a line holding a carriage return only, after a line feed. *)
Lemma read_cr_line_between (first second : string) :
  read_conllu_sentences (first ++ nl ++ crlf ++ second)
  = (read_conllu_sentences first ++ read_conllu_sentences second)%list.
Proof.
  rewrite <- read_blank_line_between.
  unfold read_conllu_sentences, file_lines. do 2 f_equal.
  rewrite <- !(append_assoc first nl), !universal_newlines_cut.
  reflexivity.
Qed.

End Boundaries.

(** C10, amended.  Of the lines text-mode reading yields, only one that is
    empty once its trailing line feed is removed is a sentence boundary.
    With the loop in state [(sentences, current)] when it comes to a line of
    the file:
    - no carriage return is left in the line;
    - an empty line closes the current sentence (kept if non-empty) and
      resets it, and what follows is read as from the start of a file;
    - any other line is appended to the current sentence and closes
      nothing: the next sentence returned begins with the current sentence
      followed by that line;
    - this is so of a line holding only spaces and tabs, with or without
      its line feed: it is a content line of the current sentence;
    - a file none of whose lines is empty is read as one sentence;
    - the line that holds a carriage return only, be it after a line feed
      or between the line ends of a CRLF file, is a boundary: reading takes
      the carriage return for a line terminator. *)
Theorem only_empty_lines_are_boundaries
    (content : string) (before after : list string) (line : string)
    (sentences : list sentence) (current : sentence) :
  file_lines content = before ++ line :: after ->
  fold_left step before ([], []) = (sentences, current) ->
  no_cr line = true /\
  (rstrip_nl line = EmptyString ->
   fold_left step (before ++ [line]) ([], [])
   = (finish (sentences, current), []) /\
   read_conllu_sentences content
   = finish (sentences, current) ++ read_lines after) /\
  (rstrip_nl line <> EmptyString ->
   fold_left step (before ++ [line]) ([], [])
   = (sentences, current ++ [rstrip_nl line]) /\
   exists more later,
     read_conllu_sentences content
     = sentences ++ (current ++ rstrip_nl line :: more) :: later) /\
  (forall w,
      w <> EmptyString -> forallb_string is_blank_space w = true ->
      line = with_nl w \/ line = w ->
      fold_left step (before ++ [line]) ([], [])
      = (sentences, current ++ [w]) /\
      exists more later,
        read_conllu_sentences content
        = sentences ++ (current ++ w :: more) :: later) /\
  ((forall l, In l (file_lines content) -> rstrip_nl l <> EmptyString) ->
   read_conllu_sentences content = [map rstrip_nl (file_lines content)]) /\
  (forall first second,
      read_conllu_sentences (first ++ nl ++ crlf ++ second)%string
      = read_conllu_sentences first ++ read_conllu_sentences second /\
      read_conllu_sentences (first ++ crlf ++ crlf ++ second)%string
      = read_conllu_sentences first ++ read_conllu_sentences second).
Proof.
  intros Hlines Hstate.
  assert (Hstep : fold_left step (before ++ [line]) ([], [])
                  = step (sentences, current) line)
    by now rewrite fold_left_app, Hstate.
  assert (Hread : forall st,
             step (sentences, current) line = st ->
             read_conllu_sentences content
             = fst st ++ group_lines (snd st) after).
  { intros [ss cur] E. unfold read_conllu_sentences. rewrite Hlines.
    change (line :: after) with ([line] ++ after). rewrite app_assoc.
    apply read_lines_from. now rewrite Hstep. }
  assert (Hcontent : rstrip_nl line <> EmptyString ->
            fold_left step (before ++ [line]) ([], [])
            = (sentences, current ++ [rstrip_nl line]) /\
            exists more later,
              read_conllu_sentences content
              = sentences ++ (current ++ rstrip_nl line :: more) :: later).
  { intros Hne.
    assert (E : step (sentences, current) line
                = (sentences, current ++ [rstrip_nl line])).
    { unfold step. apply String.eqb_neq in Hne. now rewrite Hne. }
    split; [now rewrite Hstep|].
    rewrite (Hread _ E). simpl fst. simpl snd.
    destruct (@group_lines_head after (current ++ [rstrip_nl line]))
      as (more & later & ->).
    { destruct current; discriminate. }
    exists more, later. now rewrite <- app_assoc. }
  split; [apply file_lines_no_cr with content; rewrite Hlines;
          apply in_elt|].
  split; [|split; [exact Hcontent|split; [|split]]].
  - intros Hempty.
    assert (E : step (sentences, current) line
                = (finish (sentences, current), [])).
    { unfold step, finish. rewrite Hempty. simpl String.eqb.
      destruct current; reflexivity. }
    split; [now rewrite Hstep|].
    rewrite (Hread _ E). simpl fst. simpl snd.
    now rewrite read_lines_group.
  - intros w Hw Hblank Hline.
    assert (E : rstrip_nl line = w).
    { pose proof (blank_space_no_lf _ Hblank) as Hlf.
      destruct Hline as [-> | ->].
      - now apply rstrip_nl_line.
      - now apply rstrip_nl_no_lf. }
    rewrite <- E. apply Hcontent. now rewrite E.
  - intros Hnone. unfold read_conllu_sentences.
    rewrite read_lines_group, group_lines_no_blank by exact Hnone.
    rewrite Hlines. simpl app. rewrite map_app. simpl map.
    destruct (map rstrip_nl before); reflexivity.
  - intros first second. split.
    + apply read_cr_line_between.
    + apply read_crlf_line_between.
Qed.

Lemma only_empty_lines_are_boundaries_witness :
  let content :=
    ("a" ++ nl ++ String " " (String "009" nl) ++ "b" ++ nl)%string in
  let line := String " "%char (String "009"%char nl) in
  let w := String " "%char (String "009"%char EmptyString) in
  file_lines content = [("a" ++ nl)%string] ++ line :: [("b" ++ nl)%string] /\
  fold_left step [("a" ++ nl)%string] ([], []) = ([], ["a"%string]) /\
  no_cr line = true /\
  fold_left step ([("a" ++ nl)%string] ++ [line]) ([], [])
  = ([], ["a"%string] ++ [w]) /\
  read_conllu_sentences content = [["a"%string; w; "b"%string]].
Proof.
  cbv zeta.
  destruct (@only_empty_lines_are_boundaries
              ("a" ++ nl ++ String " " (String "009" nl) ++ "b" ++ nl)%string
              [("a" ++ nl)%string] [("b" ++ nl)%string]
              (String " "%char (String "009"%char nl))
              [] ["a"%string] eq_refl eq_refl)
    as (Hcr & _ & _ & Hw & Hone & _).
  split; [reflexivity|]. split; [reflexivity|]. split; [exact Hcr|].
  split.
  - apply Hw; [discriminate | reflexivity | left; reflexivity].
  - rewrite Hone; [reflexivity|].
    intros l [<-|[<-|[<-|[]]]]; discriminate.
Defined.

(** ** Lists: updates, swaps and slices *)

Section ListFacts.

Context {A : Type}.

Local Open Scope list_scope.

Lemma update_length (x : list A) :
  forall i v, length (update i v x) = length x.
Proof.
  induction x as [|h t IH]; intros [|i] v; simpl; auto.
Qed.

(** Overwriting a cell trades its old content for the new one. *)
Lemma update_permutation (x : list A) :
  forall i v old,
    nth_error x i = Some old ->
    Permutation (v :: x) (old :: update i v x).
Proof.
  induction x as [|h t IH]; intros [|i] v old Hnth; simpl in *;
    try discriminate.
  - injection Hnth as ->. apply perm_swap.
  - apply Permutation_trans with (h :: v :: t); [apply perm_swap|].
    apply Permutation_trans with (h :: old :: update i v t);
      [|apply perm_swap].
    apply perm_skip. now apply IH.
Qed.

(** After [x[i] = x[j]], the cell [j] still holds the old [x[j]]. *)
Lemma nth_error_update_same (x : list A) :
  forall i j a b,
    nth_error x i = Some a -> nth_error x j = Some b ->
    nth_error (update i b x) j = Some b.
Proof.
  induction x as [|h t IH]; intros [|i] [|j] a b Hi Hj; simpl in *;
    try discriminate; try assumption; try reflexivity.
  now apply IH with a.
Qed.

Lemma swap_in_range (x : list A) (i j : nat) :
  i < length x -> j < length x ->
  exists y, swap i j x = Some y /\ Permutation x y /\ length y = length x.
Proof.
  intros Hi Hj. unfold swap.
  destruct (nth_error x j) as [xj|] eqn:Ej;
    [|apply nth_error_None in Ej; lia].
  destruct (nth_error x i) as [xi|] eqn:Ei;
    [|apply nth_error_None in Ei; lia].
  eexists. split; [reflexivity|]. split.
  - apply Permutation_cons_inv with xj.
    apply Permutation_trans with (xi :: update i xj x).
    + now apply update_permutation.
    + apply update_permutation. now apply nth_error_update_same with xi.
  - now rewrite !update_length.
Qed.

(** Three contiguous slices cut at [p <= q] rebuild the list. *)
Lemma firstn_skipn_three (x : list A) (p q : nat) :
  p <= q -> q <= length x ->
  firstn p x ++ firstn (q - p) (skipn p x)
    ++ firstn (length x - q) (skipn q x) = x.
Proof.
  intros Hpq Hq.
  rewrite (firstn_all2 (n := length x - q)) by (rewrite length_skipn; lia).
  replace q with ((q - p) + p) at 2 by lia.
  rewrite <- skipn_skipn, firstn_skipn. apply firstn_skipn.
Qed.

Lemma partition_app (x : list A) (train_size dev_size : Z) :
  (0 <= train_size)%Z -> (0 <= dev_size)%Z ->
  let '(train, dev, test) := partition train_size dev_size x in
  train ++ dev ++ test = x.
Proof.
  intros Ha Hb. unfold partition, slice_to, slice_from, slice, bound.
  set (len := Z.of_nat (length x)).
  assert (Hlen : (0 <= len)%Z) by (unfold len; lia).
  replace (0 <? 0)%Z with false by reflexivity.
  replace (train_size <? 0)%Z with false by (symmetry; apply Z.ltb_ge; lia).
  replace (train_size + dev_size <? 0)%Z with false
    by (symmetry; apply Z.ltb_ge; lia).
  replace (len <? 0)%Z with false by (symmetry; apply Z.ltb_ge; lia).
  replace (Z.to_nat (Z.min 0 len)) with 0 by lia.
  replace (Z.to_nat (Z.min len len)) with (length x) by (unfold len; lia).
  rewrite Nat.sub_0_r. simpl skipn.
  apply firstn_skipn_three; unfold len; lia.
Qed.

End ListFacts.

(** ** The shuffle *)

Section ShuffleFacts.

Context {R : PyRandom} {A : Type}.

Hypothesis randbelow_ok : randbelow_in_range R.

Lemma shuffle_loop_permutes (indices : list nat) :
  forall (x : list A) g,
    Forall (fun i => i < length x) indices ->
    exists y g',
      shuffle_loop indices x g = Some (y, g') /\ Permutation x y.
Proof.
  induction indices as [|i rest IH]; intros x g Hall; simpl.
  - exists x, g. split; [reflexivity | apply Permutation_refl].
  - inversion Hall as [|? ? Hi Hrest]; subst.
    pose proof (randbelow_ok (n := i + 1) g ltac:(lia)) as Hj.
    destruct (randbelow (i + 1) g) as [j g1]. simpl in Hj.
    destruct (swap_in_range x (i := i) (j := j)) as (y & -> & Hperm & Hlen);
      [lia | lia |].
    destruct (IH y g1) as (z & g' & Hloop & Hperm').
    + rewrite Hlen. exact Hrest.
    + exists z, g'. split; [exact Hloop|].
      now apply Permutation_trans with y.
Qed.

(** [random.shuffle] returns, with a permutation of its argument. *)
Lemma shuffle_permutes (x : list A) (g : rng_state) :
  exists y g', shuffle x g = Some (y, g') /\ Permutation x y.
Proof.
  unfold shuffle. apply shuffle_loop_permutes.
  apply Forall_forall. intros i Hin.
  apply in_rev, in_seq in Hin. lia.
Qed.

End ShuffleFacts.

(** ** Floats *)

Section FloatFacts.

Local Open Scope Z_scope.

(** *** Digits *)

Lemma digits2_pos_bounds (p : positive) :
  2 ^ (Zpos (digits2_pos p) - 1) <= Zpos p < 2 ^ Zpos (digits2_pos p).
Proof.
  induction p as [p IH | p IH |]; simpl digits2_pos.
  - rewrite Pos2Z.inj_succ.
    replace (Z.succ (Zpos (digits2_pos p)) - 1)
      with (Z.succ (Zpos (digits2_pos p) - 1)) by lia.
    rewrite !Z.pow_succ_r by lia. lia.
  - rewrite Pos2Z.inj_succ.
    replace (Z.succ (Zpos (digits2_pos p)) - 1)
      with (Z.succ (Zpos (digits2_pos p) - 1)) by lia.
    rewrite !Z.pow_succ_r by lia. lia.
  - simpl. lia.
Qed.

(** The number of digits of a positive number between two powers of two. *)
Lemma digits2_pos_unique (p : positive) (d : Z) :
  2 ^ (d - 1) <= Zpos p < 2 ^ d -> 0 < d -> Zpos (digits2_pos p) = d.
Proof.
  intros [Hlo Hhi] Hd. pose proof (digits2_pos_bounds p) as [Hlo' Hhi'].
  set (D := Zpos (digits2_pos p)) in *.
  assert (HD : 0 < D) by (unfold D; lia).
  destruct (Z.lt_trichotomy D d) as [Hlt | [Heq | Hgt]]; [|exact Heq|].
  - assert (2 ^ D <= 2 ^ (d - 1)) by (apply Z.pow_le_mono_r; lia). lia.
  - assert (2 ^ d <= 2 ^ (D - 1)) by (apply Z.pow_le_mono_r; lia). lia.
Qed.

Lemma iter_xO_pow (m : positive) (p : positive) :
  Zpos (Pos.iter xO m p) = Zpos m * 2 ^ Zpos p.
Proof.
  induction p as [|p IH] using Pos.peano_ind.
  - simpl. lia.
  - rewrite Pos.iter_succ, Pos2Z.inj_succ, Z.pow_succ_r by lia.
    rewrite Pos2Z.inj_xO, IH. lia.
Qed.

(** *** Shifting right *)

Lemma shr_1_m (mrs : shr_record) :
  0 <= shr_m mrs ->
  shr_m (shr_1 mrs) = shr_m mrs / 2 /\
  shr_r (shr_1 mrs) = Z.odd (shr_m mrs).
Proof.
  destruct mrs as [m r s]. simpl. intros Hm.
  destruct m as [|p|p]; [split; reflexivity | | lia].
  destruct p as [p|p|]; simpl; split; try reflexivity.
  - apply Z.div_unique with 1; lia.
  - apply Z.div_unique with 0; lia.
Qed.

(** After [k >= 1] steps the mantissa is the quotient by [2^k], and the
    round bit is the last bit shifted out. *)
Lemma iter_shr_1 (p : positive) :
  forall mrs,
    0 <= shr_m mrs ->
    shr_m (iter_pos shr_1 p mrs) = shr_m mrs / 2 ^ Zpos p /\
    shr_r (iter_pos shr_1 p mrs) = Z.odd (shr_m mrs / 2 ^ (Zpos p - 1)).
Proof.
  assert (Hdiv : forall a j, 0 <= a -> 0 <= j -> 0 <= a / 2 ^ j).
  { intros a j Ha Hj. apply Z.div_pos; [lia|]. apply Z.pow_pos_nonneg; lia. }
  assert (Hdd : forall a i j, 0 <= i -> 0 <= j ->
                              a / 2 ^ i / 2 ^ j = a / 2 ^ (i + j)).
  { intros a i j Hi Hj. rewrite Z.pow_add_r by lia.
    pose proof (Z.pow_pos_nonneg 2 i). pose proof (Z.pow_pos_nonneg 2 j).
    rewrite Z.div_div by lia. reflexivity. }
  induction p as [p IH | p IH |]; intros mrs Hm; simpl iter_pos;
    [rewrite !(Pos2Z.inj_xI p) | rewrite !(Pos2Z.inj_xO p) |].
  - destruct (@shr_1_m mrs Hm) as [E1 _].
    replace (shr_m mrs / 2) with (shr_m mrs / 2 ^ 1) in E1
      by now rewrite Z.pow_1_r.
    assert (H1 : 0 <= shr_m (shr_1 mrs)) by (rewrite E1; apply Hdiv; lia).
    destruct (IH _ H1) as [E2 _].
    assert (H2 : 0 <= shr_m (iter_pos shr_1 p (shr_1 mrs)))
      by (rewrite E2; apply Hdiv; lia).
    destruct (IH _ H2) as [E3 R3].
    rewrite E3, R3, E2, E1.
    rewrite !Hdd by lia. split; [f_equal; f_equal; lia | f_equal; f_equal; f_equal; lia].
  - destruct (IH _ Hm) as [E2 _].
    assert (H2 : 0 <= shr_m (iter_pos shr_1 p mrs))
      by (rewrite E2; apply Hdiv; lia).
    destruct (IH _ H2) as [E3 R3].
    rewrite E3, R3, E2. rewrite !Hdd by lia. split; [f_equal; f_equal; lia | f_equal; f_equal; f_equal; lia].
  - destruct (@shr_1_m mrs Hm) as [E1 R1]. rewrite E1, R1. simpl.
    rewrite Z.div_1_r. split; [f_equal; lia | reflexivity].
Qed.


Lemma shr_nonpos (mrs : shr_record) (e n : Z) :
  n <= 0 -> shr mrs e n = (mrs, e).
Proof. destruct n; [reflexivity | lia | reflexivity]. Qed.

Lemma shr_pos (mrs : shr_record) (e n : Z) :
  0 < n -> 0 <= shr_m mrs ->
  exists mrs',
    shr mrs e n = (mrs', e + n) /\
    shr_m mrs' = shr_m mrs / 2 ^ n /\
    shr_r mrs' = Z.odd (shr_m mrs / 2 ^ (n - 1)).
Proof.
  intros Hn Hm. destruct n as [|p|p]; try lia.
  exists (iter_pos shr_1 p mrs). split; [reflexivity|].
  now apply iter_shr_1.
Qed.

Lemma fexp_normal (x : Z) :
  -1021 <= x -> fexp PyFloat.prec PyFloat.emax x = x - 53.
Proof. unfold fexp, emin, PyFloat.prec, PyFloat.emax. lia. Qed.

(** A mantissa of 53 digits is left as it is. *)
Lemma binary_round_aux_exact (m : positive) (e : Z) :
  Zpos (digits2_pos m) = 53 -> -1074 <= e <= 971 ->
  binary_round_aux PyFloat.prec PyFloat.emax false (Zpos m) e loc_Exact
  = S754_finite false m e.
Proof.
  intros Hd He. unfold binary_round_aux, shr_fexp. simpl Zdigits2.
  rewrite Hd, fexp_normal by lia.
  rewrite shr_nonpos by lia. simpl shr_record_of_loc.
  simpl loc_of_shr_record. simpl round_nearest_even. simpl Zdigits2.
  rewrite Hd, fexp_normal by lia. rewrite shr_nonpos by lia.
  simpl shr_m. unfold PyFloat.emax, PyFloat.prec.
  replace (e <=? 1024 - 53) with true by (symmetry; apply Z.leb_le; lia).
  reflexivity.
Qed.


Lemma round_nearest_even_bounds (mrs : shr_record) :
  let q := round_nearest_even (shr_m mrs) (loc_of_shr_record mrs) in
  shr_m mrs <= q <= shr_m mrs + 1 /\ (q <> shr_m mrs -> shr_r mrs = true).
Proof.
  destruct mrs as [m [|] [|]]; simpl; try destruct (Z.even m);
    split; try lia; try reflexivity; intros H; try reflexivity; now elim H.
Qed.

Lemma shiftl_neg (q e : Z) : e <= 0 -> Z.shiftl q e = q / 2 ^ (- e).
Proof.
  intros He. rewrite <- Z.shiftr_opp_r.
  apply Z.shiftr_div_pow2. lia.
Qed.

(** Rounding a mantissa [m] of more than 53 digits: with [k] the number of
    digits in excess, the mantissa [q] kept is the quotient of [m] by [2^k]
    or its successor, within half a unit of [m / 2^k]; when the successor
    is [2^53] the result is renormalised to [2^52]. *)
Lemma binary_round_aux_round (m : positive) (e : Z) :
  let k := Zpos (digits2_pos m) - 53 in
  1 <= k -> -1074 <= e + k ->
  exists q m2 e2,
    Zpos m / 2 ^ k <= q /\
    q * 2 ^ k <= Zpos m + 2 ^ (k - 1) /\
    Zpos (digits2_pos m2) = 53 /\
    ((Zpos m2 = q /\ e2 = e + k) \/
     (q = 2 * Zpos m2 /\ e2 = e + k + 1)) /\
    binary_round_aux PyFloat.prec PyFloat.emax false (Zpos m) e loc_Exact
    = if e2 <=? 971 then S754_finite false m2 e2 else S754_infinity false.
Proof.
  intros k Hk He.
  pose proof (digits2_pos_bounds m) as [Hlo Hhi].
  replace (Zpos (digits2_pos m)) with (k + 53) in Hlo, Hhi by (unfold k; lia).
  replace (k + 53 - 1) with (k + 52) in Hlo by lia.
  rewrite Z.pow_add_r in Hlo, Hhi by lia.
  assert (Hpk : 0 < 2 ^ k) by (apply Z.pow_pos_nonneg; lia).
  unfold binary_round_aux, shr_fexp. simpl Zdigits2.
  rewrite fexp_normal by (unfold k in *; lia).
  replace (Zpos (digits2_pos m) + e - 53 - e) with k by (unfold k; lia).
  destruct (@shr_pos (shr_record_of_loc (Zpos m) loc_Exact) e k)
    as (mrs1 & -> & Hm1 & Hr1); [lia | simpl; lia |].
  simpl shr_m in Hm1, Hr1.
  destruct (round_nearest_even_bounds mrs1) as [Hq Hup].
  set (q := round_nearest_even (shr_m mrs1) (loc_of_shr_record mrs1)) in *.
  rewrite Hm1 in Hq, Hup.
  assert (Hm1lo : 2 ^ 52 <= Zpos m / 2 ^ k)
    by (apply Z.div_le_lower_bound; lia).
  assert (Hm1hi : Zpos m / 2 ^ k < 2 ^ 53)
    by (apply Z.div_lt_upper_bound; lia).
  assert (Hhalf : q * 2 ^ k <= Zpos m + 2 ^ (k - 1)).
  { destruct (Z.eq_dec q (Zpos m / 2 ^ k)) as [-> | Hne].
    - pose proof (Z.mul_div_le (Zpos m) (2 ^ k) Hpk).
      assert (0 <= 2 ^ (k - 1)) by (apply Z.pow_nonneg; lia). lia.
    - specialize (Hup Hne). rewrite Hup in Hr1. symmetry in Hr1.
      assert (Hh : 0 < 2 ^ (k - 1)) by (apply Z.pow_pos_nonneg; lia).
      assert (H2h : 2 ^ k = 2 ^ (k - 1) * 2).
      { replace k with (k - 1 + 1) at 1 by lia.
        rewrite Z.pow_add_r by lia. reflexivity. }
      set (a := Zpos m / 2 ^ (k - 1)) in *.
      assert (Ha : Zpos m / 2 ^ k = a / 2).
      { unfold a. rewrite H2h. rewrite Z.div_div by lia. reflexivity. }
      pose proof (Z.mul_div_le (Zpos m) (2 ^ (k - 1)) Hh) as Hah.
      fold a in Hah.
      pose proof (Zmod_odd a) as Hodd. rewrite Hr1 in Hodd.
      pose proof (Z.div_mod a 2 ltac:(lia)) as Hdm.
      assert (Hqa : q = a / 2 + 1) by lia.
      rewrite Hqa, H2h. nia. }
  destruct q as [|qp|qp] eqn:Eq; try lia.
  simpl Zdigits2.
  destruct (Z.eq_dec (Zpos qp) (2 ^ 53)) as [E53 | N53].
  - assert (Hd : Zpos (digits2_pos qp) = 54).
    { apply digits2_pos_unique; [|lia]. rewrite E53.
      change (54 - 1) with 53. split; [lia|].
      apply Z.pow_lt_mono_r; lia. }
    rewrite Hd, fexp_normal by lia.
    replace (54 + (e + k) - 53 - (e + k)) with 1 by lia.
    destruct (@shr_pos (shr_record_of_loc (Zpos qp) loc_Exact) (e + k) 1)
      as (mrs2 & -> & Hm2 & _); [lia | simpl; lia |].
    simpl shr_m in Hm2. rewrite Hm2, E53.
    change (2 ^ 53 / 2 ^ 1) with (Zpos 4503599627370496).
    exists (Zpos qp), 4503599627370496%positive, (e + k + 1).
    split; [lia|]. split; [exact Hhalf|]. split; [reflexivity|].
    split; [right; split; [rewrite E53; reflexivity | reflexivity]|].
    reflexivity.
  - assert (Hd : Zpos (digits2_pos qp) = 53).
    { apply digits2_pos_unique; lia. }
    rewrite Hd, fexp_normal by lia.
    rewrite shr_nonpos by lia. simpl shr_m.
    exists (Zpos qp), qp, (e + k).
    split; [lia|]. split; [exact Hhalf|]. split; [exact Hd|].
    split; [left; split; reflexivity|]. reflexivity.
Qed.

(** Rounding to 53 digits, then truncating to an integer, when the result
    has a negative exponent. *)
Lemma binary_round_aux_to_int (m : positive) (e : Z) :
  let k := Zpos (digits2_pos m) - 53 in
  1 <= k -> -1074 <= e + k <= -1 ->
  exists q,
    Zpos m / 2 ^ k <= q /\
    q * 2 ^ k <= Zpos m + 2 ^ (k - 1) /\
    PyFloat.to_int
      (binary_round_aux PyFloat.prec PyFloat.emax false (Zpos m) e loc_Exact)
    = Some (q / 2 ^ (- (e + k))).
Proof.
  intros k Hk He.
  destruct (@binary_round_aux_round m e)
    as (q & m2 & e2 & Hq1 & Hq2 & _ & Hlink & ->); fold k; [lia | lia |].
  fold k in Hq1, Hq2, Hlink.
  exists q. split; [exact Hq1|]. split; [exact Hq2|].
  replace (e2 <=? 971) with true
    by (symmetry; apply Z.leb_le; destruct Hlink as [[_ ->] | [_ ->]]; lia).
  unfold PyFloat.to_int, cond_Zopp. f_equal.
  destruct Hlink as [[Eq ->] | [Eq ->]].
  - rewrite Eq. apply shiftl_neg. lia.
  - rewrite shiftl_neg by lia. rewrite Eq.
    replace (- (e + k)) with (1 + - (e + k + 1)) by lia.
    rewrite Z.pow_add_r by lia. change (2 ^ 1) with 2.
    assert (0 < 2 ^ (- (e + k + 1))) by (apply Z.pow_pos_nonneg; lia).
    rewrite Z.div_mul_cancel_l by lia. reflexivity.
Qed.

(** The conversion of an integer below [2^53] is exact: the mantissa is the
    integer shifted left to 53 digits. *)
Lemma of_int_exact (n : Z) :
  1 <= n < 2 ^ 53 ->
  exists mz d,
    1 <= d <= 53 /\ 2 ^ (d - 1) <= n < 2 ^ d /\
    Zpos mz = n * 2 ^ (53 - d) /\
    Zpos (digits2_pos mz) = 53 /\
    PyFloat.of_int n = Some (S754_finite false mz (d - 53)).
Proof.
  intros [Hn1 Hn2]. destruct n as [|p|p]; try lia.
  pose proof (digits2_pos_bounds p) as Hb.
  set (d := Zpos (digits2_pos p)) in *.
  assert (Hd : 1 <= d <= 53).
  { split; [unfold d; lia|].
    destruct (Z.le_gt_cases d 53) as [H|H]; [exact H|].
    assert (2 ^ 53 <= 2 ^ (d - 1)) by (apply Z.pow_le_mono_r; lia). lia. }
  assert (Hmz : forall mz, Zpos mz = Zpos p * 2 ^ (53 - d) ->
                           Zpos (digits2_pos mz) = 53).
  { intros mz E. apply digits2_pos_unique; [|lia]. rewrite E.
    assert (Hs : 0 < 2 ^ (53 - d)) by (apply Z.pow_pos_nonneg; lia).
    replace (2 ^ (53 - 1)) with (2 ^ (d - 1) * 2 ^ (53 - d))
      by (rewrite <- Z.pow_add_r by lia; f_equal; lia).
    replace (2 ^ 53) with (2 ^ d * 2 ^ (53 - d))
      by (rewrite <- Z.pow_add_r by lia; f_equal; lia).
    split; [apply Z.mul_le_mono_nonneg_r | apply Z.mul_lt_mono_pos_r]; lia. }
  unfold PyFloat.of_int, binary_normalize, binary_round, shl_align.
  fold d. rewrite fexp_normal by lia.
  destruct (d + 0 - 53 - 0) as [|s|s] eqn:Es; try lia.
  - exists p, d.
    assert (E : Zpos p = Zpos p * 2 ^ (53 - d)).
    { replace (53 - d) with 0 by lia. rewrite Z.pow_0_r. lia. }
    rewrite binary_round_aux_exact; [|now apply Hmz | lia].
    split; [lia|]. split; [lia|]. split; [exact E|].
    split; [now apply Hmz|]. do 2 f_equal; try lia.
  - exists (Pos.iter xO p s), d.
    assert (E : Zpos (Pos.iter xO p s) = Zpos p * 2 ^ (53 - d)).
    { rewrite iter_xO_pow. f_equal. f_equal. lia. }
    rewrite binary_round_aux_exact; [|now apply Hmz | lia].
    split; [lia|]. split; [lia|]. split; [exact E|].
    split; [now apply Hmz|]. do 2 f_equal; try lia.
Qed.

(** The product of two mantissas of 53 digits has 105 or 106 digits. *)
Lemma product_digits (m1 m2 : positive) :
  Zpos (digits2_pos m1) = 53 -> Zpos (digits2_pos m2) = 53 ->
  105 <= Zpos (digits2_pos (m1 * m2)) <= 106.
Proof.
  intros H1 H2.
  pose proof (digits2_pos_bounds m1) as B1. rewrite H1 in B1.
  pose proof (digits2_pos_bounds m2) as B2. rewrite H2 in B2.
  change (53 - 1) with 52 in B1, B2.
  pose proof (digits2_pos_bounds (m1 * m2)) as BM.
  rewrite Pos2Z.inj_mul in BM.
  set (D := Zpos (digits2_pos (m1 * m2))) in *.
  assert (HM1 : 2 ^ 104 <= Zpos m1 * Zpos m2).
  { change (2 ^ 104) with (2 ^ 52 * 2 ^ 52).
    apply Z.mul_le_mono_nonneg; lia. }
  assert (HM2 : Zpos m1 * Zpos m2 < 2 ^ 106).
  { change (2 ^ 106) with (2 ^ 53 * 2 ^ 53).
    apply Z.mul_lt_mono_nonneg; lia. }
  split.
  - destruct (Z.le_gt_cases 105 D) as [H|H]; [exact H|].
    assert (2 ^ D <= 2 ^ 104) by (apply Z.pow_le_mono_r; unfold D; lia).
    lia.
  - destruct (Z.le_gt_cases D 106) as [H|H]; [exact H|].
    assert (2 ^ 106 <= 2 ^ (D - 1)) by (apply Z.pow_le_mono_r; lia). lia.
Qed.

(** [int(c * n)] for a constant [c] of mantissa [mc] and exponent [-K]: when
    [n] is below [2^51] and the exact product is further than [2^(50-K)] from
    the next integer, the float product truncates to the floor [m] of the
    exact product. *)
Lemma int_mul_floor (mc : positive) (K n m : Z) :
  Zpos (digits2_pos mc) = 53 ->
  53 <= K <= 1074 ->
  1 <= n < 2 ^ 51 ->
  m * 2 ^ K <= Zpos mc * n ->
  Zpos mc * n + 2 ^ 50 < (m + 1) * 2 ^ K ->
  PyFloat.int_mul (S754_finite false mc (- K)) n = Some m.
Proof.
  intros Hmc HK Hn Hlo Hhi.
  destruct (@of_int_exact n) as (mz & d & Hd & Hnd & Emz & Dmz & Eof).
  { split; [lia|]. apply Z.lt_trans with (2 ^ 51); [lia|].
    apply Z.pow_lt_mono_r; lia. }
  assert (Hd51 : d <= 51).
  { destruct (Z.le_gt_cases d 51) as [H|H]; [exact H|].
    assert (2 ^ 51 <= 2 ^ (d - 1)) by (apply Z.pow_le_mono_r; lia). lia. }
  unfold PyFloat.int_mul. rewrite Eof. unfold PyFloat.mul, SFmul.
  simpl xorb.
  pose proof (@product_digits mc mz Hmc Dmz) as HD.
  set (D := Zpos (digits2_pos (mc * mz))) in *.
  destruct (@binary_round_aux_to_int (mc * mz) (- K + (d - 53)))
    as (q & Hq1 & Hq2 & ->); fold D; [lia | lia |].
  rewrite Pos2Z.inj_mul in Hq1, Hq2.
  set (k := D - 53) in *.
  f_equal.
  (* the powers of two at play *)
  set (A := 2 ^ (53 - d)) in *.
  set (T := 2 ^ (- (- K + (d - 53) + k))).
  assert (HA : 4 <= A).
  { change 4 with (2 ^ 2). apply Z.pow_le_mono_r; lia. }
  assert (HT : 0 < T) by (apply Z.pow_pos_nonneg; lia).
  assert (HP : 0 < 2 ^ k) by (apply Z.pow_pos_nonneg; lia).
  assert (HTP : T * 2 ^ k = 2 ^ K * A).
  { unfold T, A. rewrite <- !Z.pow_add_r by lia. f_equal. lia. }
  assert (Hh : 2 ^ (k - 1) <= 2 ^ 52) by (apply Z.pow_le_mono_r; lia).
  assert (H2K : 0 < 2 ^ K) by (apply Z.pow_pos_nonneg; lia).
  rewrite Emz in Hq1, Hq2.
  (* lower bound *)
  assert (Hlow : m * T <= q).
  { apply Z.le_trans with (Zpos mc * (n * A) / 2 ^ k); [|exact Hq1].
    apply Z.div_le_lower_bound; [exact HP|].
    replace (2 ^ k * (m * T)) with (m * 2 ^ K * A)
      by (rewrite <- Z.mul_assoc, <- HTP; ring).
    replace (Zpos mc * (n * A)) with (Zpos mc * n * A) by ring.
    apply Z.mul_le_mono_nonneg_r; lia. }
  (* upper bound *)
  assert (Hupp : q < (m + 1) * T).
  { apply Z.mul_lt_mono_pos_r with (2 ^ k); [exact HP|].
    replace ((m + 1) * T * 2 ^ k) with ((m + 1) * 2 ^ K * A)
      by (rewrite <- Z.mul_assoc, <- HTP; ring).
    apply Z.le_lt_trans with (Zpos mc * (n * A) + 2 ^ (k - 1)); [exact Hq2|].
    change (2 ^ 52) with (2 ^ 50 * 4) in Hh.
    assert (Hgap : (2 ^ 50 + 1) * A <= ((m + 1) * 2 ^ K - Zpos mc * n) * A)
      by (apply Z.mul_le_mono_nonneg_r; lia).
    assert (H50 : 0 < 2 ^ 50) by (apply Z.pow_pos_nonneg; lia).
    nia. }
  symmetry. apply Z.div_unique with (q - m * T); lia.
Qed.


(** *** The two products of the script *)

Lemma train_size_floor (total : Z) :
  1 <= total < 1688849860263936 ->
  PyFloat.int_mul PyFloat.float_0_8 total = Some (4 * total / 5).
Proof.
  intros Ht.
  pose proof (Z.div_mod (4 * total) 5 ltac:(lia)) as Hdm.
  pose proof (Z.mod_pos_bound (4 * total) 5 ltac:(lia)) as Hmod.
  apply (@int_mul_floor 7205759403792794 53 total (4 * total / 5)).
  - reflexivity.
  - lia.
  - change (2 ^ 51) with 2251799813685248. lia.
  - change (2 ^ 53) with 9007199254740992. lia.
  - change (2 ^ 53) with 9007199254740992.
    change (2 ^ 50) with 1125899906842624. lia.
Qed.

Lemma dev_size_floor (total : Z) :
  1 <= total < 1688849860263936 ->
  PyFloat.int_mul PyFloat.float_0_1 total = Some (total / 10).
Proof.
  intros Ht.
  pose proof (Z.div_mod total 10 ltac:(lia)) as Hdm.
  pose proof (Z.mod_pos_bound total 10 ltac:(lia)) as Hmod.
  apply (@int_mul_floor 7205759403792794 56 total (total / 10)).
  - reflexivity.
  - lia.
  - change (2 ^ 51) with 2251799813685248. lia.
  - change (2 ^ 56) with 72057594037927936. lia.
  - change (2 ^ 56) with 72057594037927936.
    change (2 ^ 50) with 1125899906842624. lia.
Qed.

Lemma split_sizes_exact (total : Z) :
  1 <= total < 1688849860263936 ->
  PyFloat.split_sizes total = Some (PyFloat.exact_sizes total).
Proof.
  intros Ht. unfold PyFloat.split_sizes, PyFloat.exact_sizes.
  now rewrite train_size_floor, dev_size_floor.
Qed.

(** Truncating a float to an integer never goes above its value. *)
Lemma shiftl_value (m e : Z) :
  0 <= m ->
  (0 <= e -> Z.shiftl m e = m * 2 ^ e) /\
  (e <= 0 -> Z.shiftl m e * 2 ^ (- e) <= m).
Proof.
  intros Hm. split; intros He.
  - now apply Z.shiftl_mul_pow2.
  - rewrite shiftl_neg by lia.
    assert (0 < 2 ^ (- e)) by (apply Z.pow_pos_nonneg; lia).
    rewrite Z.mul_comm. now apply Z.mul_div_le.
Qed.


(** The conversion of an integer to a float: exact below [2^53], and never
    more than the integer plus one part in [2^53]. *)
Lemma of_int_value (n : Z) (x : PyFloat.float) :
  1 <= n -> PyFloat.of_int n = Some x ->
  exists m1 e1,
    x = S754_finite false m1 e1 /\
    Zpos (digits2_pos m1) = 53 /\
    -52 <= e1 /\
    (e1 <= 0 -> Zpos m1 = n * 2 ^ (- e1)) /\
    (0 < e1 -> Zpos m1 * 2 ^ e1 * 2 ^ 53 <= (2 ^ 53 + 1) * n).
Proof.
  intros Hn Hx.
  destruct (Z.lt_ge_cases n (2 ^ 53)) as [Hsmall | Hlarge].
  - destruct (@of_int_exact n) as (mz & d & Hd & _ & Emz & Dmz & Eof);
      [lia|].
    rewrite Eof in Hx. injection Hx as <-.
    exists mz, (d - 53). split; [reflexivity|]. split; [exact Dmz|].
    split; [lia|]. split; [|lia].
    intros _. rewrite Emz. f_equal. f_equal. lia.
  - destruct n as [|p|p]; try lia.
    pose proof (digits2_pos_bounds p) as [Hlo Hhi].
    set (d := Zpos (digits2_pos p)) in *.
    assert (Hd : 54 <= d).
    { destruct (Z.le_gt_cases 54 d) as [H|H]; [exact H|].
      assert (2 ^ d <= 2 ^ 53) by (apply Z.pow_le_mono_r; unfold d; lia).
      lia. }
    revert Hx.
    unfold PyFloat.of_int, binary_normalize, binary_round, shl_align.
    fold d. rewrite fexp_normal by lia.
    destruct (d + 0 - 53 - 0) as [|s|s] eqn:Es; try lia.
    destruct (@binary_round_aux_round p 0)
      as (q & m2 & e2 & Hq1 & Hq2 & Dm2 & Hlink & ->); fold d; [lia | lia |].
    fold d in Hq1, Hq2, Hlink. set (k := d - 53) in *.
    destruct (e2 <=? 971) eqn:Ee2; [|discriminate].
    intros [= <-]. exists m2, e2.
    split; [reflexivity|]. split; [exact Dm2|].
    split; [lia|]. split; [lia|]. intros _.
    assert (Hk : 0 < 2 ^ k) by (apply Z.pow_pos_nonneg; lia).
    assert (Hval : Zpos m2 * 2 ^ e2 = q * 2 ^ k).
    { destruct Hlink as [[Eq Ee] | [Eq Ee]]; rewrite Ee, Eq.
      - now replace (0 + k) with k by lia.
      - replace (0 + k + 1) with (k + 1) by lia.
        rewrite Z.pow_add_r by lia. ring. }
    rewrite Hval.
    assert (Hulp : 2 ^ (k - 1) * 2 ^ 53 <= Zpos p).
    { rewrite <- Z.pow_add_r by lia.
      replace (k - 1 + 53) with (d - 1) by (unfold k; lia). exact Hlo. }
    assert (0 < 2 ^ 53) by (apply Z.pow_pos_nonneg; lia).
    nia.
Qed.

(** The float product of a constant [mc * 2^-K] and a float [m1 * 2^e1],
    truncated to an integer, is at most [(mc + 1) * m1 * 2^(e1 - K)]. *)
Lemma mul_to_int_le (mc m1 : positive) (K e1 v : Z) :
  Zpos (digits2_pos mc) = 53 -> Zpos (digits2_pos m1) = 53 ->
  0 <= K <= 1000 -> -52 <= e1 ->
  PyFloat.to_int
    (PyFloat.mul (S754_finite false mc (- K)) (S754_finite false m1 e1))
  = Some v ->
  (- K + e1 < 0 -> v * 2 ^ (K - e1) <= (Zpos mc + 1) * Zpos m1) /\
  (0 <= - K + e1 -> v <= (Zpos mc + 1) * Zpos m1 * 2 ^ (- K + e1)).
Proof.
  intros Hmc Hm1 HK He1.
  unfold PyFloat.mul, SFmul. simpl xorb.
  pose proof (digits2_pos_bounds m1) as Bz. rewrite Hm1 in Bz.
  change (53 - 1) with 52 in Bz.
  pose proof (@product_digits mc m1 Hmc Hm1) as HD.
  set (D := Zpos (digits2_pos (mc * m1))) in *.
  destruct (@binary_round_aux_round (mc * m1) (- K + e1))
    as (q & m2 & e2 & Hq1 & Hq2 & Dm2 & Hlink & ->); fold D; [lia | lia |].
  rewrite Pos2Z.inj_mul in Hq1, Hq2. fold D in Hq1, Hq2, Hlink.
  set (k := D - 53) in *. set (e := - K + e1) in *.
  destruct (e2 <=? 971); [|discriminate].
  unfold PyFloat.to_int, cond_Zopp. intros [= <-].
  assert (Hk : 0 < 2 ^ k) by (apply Z.pow_pos_nonneg; lia).
  assert (Hh : 2 ^ (k - 1) <= 2 ^ 52) by (apply Z.pow_le_mono_r; lia).
  assert (HB : q * 2 ^ k <= (Zpos mc + 1) * Zpos m1) by lia.
  destruct (shiftl_value e2 (Pos2Z.is_nonneg m2)) as [Hup Hdown].
  (* the integer against the mantissa kept *)
  assert (HP : (0 <= e + k -> Z.shiftl (Zpos m2) e2 = q * 2 ^ (e + k)) /\
               (e + k < 0 -> Z.shiftl (Zpos m2) e2 * 2 ^ (- (e + k)) <= q)).
  { destruct Hlink as [[Eq ->] | [Eq ->]];
      [rewrite <- Eq | rewrite Eq]; split; intros Hs.
    - apply Hup. lia.
    - apply Hdown. lia.
    - rewrite Hup by lia. rewrite Z.pow_add_r by lia. ring.
    - specialize (Hdown ltac:(lia)).
      replace (- (e + k)) with (- (e + k + 1) + 1) by lia.
      rewrite Z.pow_add_r by lia. lia. }
  destruct HP as [HP1 HP2].
  set (v := Z.shiftl (Zpos m2) e2) in *.
  split; intros Hs.
  - replace (K - e1) with (- e) by (unfold e; lia).
    destruct (Z.lt_ge_cases (e + k) 0) as [Hneg | Hpos].
    + specialize (HP2 Hneg).
      replace (- e) with (- (e + k) + k) by lia.
      rewrite Z.pow_add_r by lia.
      apply Z.le_trans with (q * 2 ^ k); [|exact HB].
      rewrite Z.mul_assoc. apply Z.mul_le_mono_nonneg_r; lia.
    + rewrite (HP1 Hpos). rewrite <- Z.mul_assoc, <- Z.pow_add_r by lia.
      replace (e + k + - e) with k by lia. exact HB.
  - rewrite HP1 by lia. rewrite Z.pow_add_r by lia.
    assert (0 <= 2 ^ e) by (apply Z.pow_nonneg; lia).
    replace (q * (2 ^ e * 2 ^ k)) with (q * 2 ^ k * 2 ^ e) by ring.
    apply Z.mul_le_mono_nonneg_r; lia.
Qed.

(** [int(c * n)] against the exact product, for any [n >= 1]. *)
Lemma int_mul_le (mc : positive) (K n v : Z) :
  Zpos (digits2_pos mc) = 53 -> 1 <= K <= 1000 -> 1 <= n ->
  PyFloat.int_mul (S754_finite false mc (- K)) n = Some v ->
  v * 2 ^ K * 2 ^ 53 <= (Zpos mc + 1) * (2 ^ 53 + 1) * n.
Proof.
  intros Hmc HK Hn. unfold PyFloat.int_mul.
  destruct (PyFloat.of_int n) as [x|] eqn:Ex; [|discriminate].
  destruct (of_int_value Hn Ex) as (m1 & e1 & -> & Dm1 & He1 & Hexact & Hround).
  intros Hv.
  destruct (@mul_to_int_le mc m1 K e1 v Hmc Dm1 ltac:(lia) He1 Hv)
    as [Hneg Hpos].
  assert (H53 : 0 < 2 ^ 53) by (apply Z.pow_pos_nonneg; lia).
  assert (H2K : 0 < 2 ^ K) by (apply Z.pow_pos_nonneg; lia).
  destruct (Z.le_gt_cases e1 0) as [Hle | Hgt].
  - (* the conversion was exact *)
    specialize (Hexact Hle). specialize (Hneg ltac:(lia)).
    rewrite Hexact in Hneg.
    replace (K - e1) with (K + - e1) in Hneg by lia.
    rewrite Z.pow_add_r in Hneg by lia.
    assert (HA : 0 < 2 ^ (- e1)) by (apply Z.pow_pos_nonneg; lia).
    assert (Hc : v * 2 ^ K <= (Zpos mc + 1) * n).
    { apply Z.mul_le_mono_pos_r with (2 ^ (- e1)); [exact HA|]. lia. }
    nia.
  - specialize (Hround Hgt).
    assert (He1p : 0 < 2 ^ e1) by (apply Z.pow_pos_nonneg; lia).
    assert (Hc : v * 2 ^ K <= (Zpos mc + 1) * Zpos m1 * 2 ^ e1).
    { destruct (Z.lt_ge_cases (- K + e1) 0) as [Hs | Hs].
      - specialize (Hneg Hs).
        replace (2 ^ K) with (2 ^ (K - e1) * 2 ^ e1)
          by (rewrite <- Z.pow_add_r by lia; f_equal; lia).
        rewrite Z.mul_assoc. apply Z.mul_le_mono_nonneg_r; lia.
      - specialize (Hpos Hs).
        replace (2 ^ e1) with (2 ^ (- K + e1) * 2 ^ K)
          by (rewrite <- Z.pow_add_r by lia; f_equal; lia).
        rewrite Z.mul_assoc. apply Z.mul_le_mono_nonneg_r; lia. }
    nia.
Qed.

(** The test partition is never of negative size. *)
Lemma split_sizes_test_nonneg (total train_size dev_size test_size : Z) :
  1 <= total ->
  PyFloat.split_sizes total = Some (train_size, dev_size, test_size) ->
  test_size = total - train_size - dev_size /\ 0 <= test_size.
Proof.
  intros Ht. unfold PyFloat.split_sizes.
  destruct (PyFloat.int_mul PyFloat.float_0_8 total) as [a|] eqn:Ea;
    [|discriminate].
  destruct (PyFloat.int_mul PyFloat.float_0_1 total) as [b|] eqn:Eb;
    [|discriminate].
  intros [= <- <- <-]. split; [reflexivity|].
  pose proof (@int_mul_le 7205759403792794 53 total a
                eq_refl ltac:(lia) Ht Ea) as Ha.
  pose proof (@int_mul_le 7205759403792794 56 total b
                eq_refl ltac:(lia) Ht Eb) as Hb.
  change (2 ^ 53) with 9007199254740992 in Ha, Hb.
  change (2 ^ 56) with 72057594037927936 in Hb.
  change (Zpos 7205759403792794 + 1) with 7205759403792795 in Ha, Hb.
  lia.
Qed.

(** The conversion succeeds for any integer a double can hold comfortably. *)
Lemma of_int_some (n : Z) :
  1 <= n < 2 ^ 1000 ->
  exists m1 e1,
    PyFloat.of_int n = Some (S754_finite false m1 e1) /\
    Zpos (digits2_pos m1) = 53 /\ -52 <= e1 <= 948.
Proof.
  intros [Hn1 Hn2].
  destruct (Z.lt_ge_cases n (2 ^ 53)) as [Hsmall | Hlarge].
  - destruct (@of_int_exact n) as (mz & d & Hd & _ & _ & Dmz & Eof); [lia|].
    exists mz, (d - 53). split; [exact Eof|]. split; [exact Dmz | lia].
  - destruct n as [|p|p]; try lia.
    pose proof (digits2_pos_bounds p) as [Hlo Hhi].
    set (d := Zpos (digits2_pos p)) in *.
    assert (Hd : 54 <= d <= 1000).
    { split.
      - destruct (Z.le_gt_cases 54 d) as [H|H]; [exact H|].
        assert (2 ^ d <= 2 ^ 53) by (apply Z.pow_le_mono_r; unfold d; lia).
        lia.
      - destruct (Z.le_gt_cases d 1000) as [H|H]; [exact H|].
        assert (2 ^ 1000 <= 2 ^ (d - 1)) by (apply Z.pow_le_mono_r; lia).
        lia. }
    unfold PyFloat.of_int, binary_normalize, binary_round, shl_align.
    fold d. rewrite fexp_normal by lia.
    destruct (d + 0 - 53 - 0) as [|s|s] eqn:Es; try lia.
    destruct (@binary_round_aux_round p 0)
      as (q & m2 & e2 & _ & _ & Dm2 & Hlink & ->); fold d; [lia | lia |].
    fold d in Hlink.
    assert (He2 : 1 <= e2 <= 948) by (destruct Hlink as [[_ ->] | [_ ->]]; lia).
    replace (e2 <=? 971) with true by (symmetry; apply Z.leb_le; lia).
    exists m2, e2. split; [reflexivity|]. split; [exact Dm2 | lia].
Qed.

(** [int(c * n)] is computed for such an integer. *)
Lemma int_mul_some (mc : positive) (K n : Z) :
  Zpos (digits2_pos mc) = 53 -> 53 <= K <= 1000 -> 1 <= n < 2 ^ 1000 ->
  exists v, PyFloat.int_mul (S754_finite false mc (- K)) n = Some v.
Proof.
  intros Hmc HK Hn.
  destruct (of_int_some Hn) as (m1 & e1 & Eof & Dm1 & He1).
  unfold PyFloat.int_mul. rewrite Eof. unfold PyFloat.mul, SFmul.
  simpl xorb.
  pose proof (@product_digits mc m1 Hmc Dm1) as HD.
  destruct (@binary_round_aux_round (mc * m1) (- K + e1))
    as (q & m2 & e2 & _ & _ & _ & Hlink & ->); [lia | lia |].
  replace (e2 <=? 971) with true
    by (symmetry; apply Z.leb_le; destruct Hlink as [[_ ->] | [_ ->]]; lia).
  eexists. reflexivity.
Qed.

(** The sizes are computed for every total below [2^1000]. *)
Lemma split_sizes_some (total : Z) :
  1 <= total < 2 ^ 1000 ->
  exists train_size dev_size test_size,
    PyFloat.split_sizes total = Some (train_size, dev_size, test_size).
Proof.
  intros Ht. unfold PyFloat.split_sizes.
  destruct (@int_mul_some 7205759403792794 53 total eq_refl ltac:(lia) Ht)
    as [a Ea].
  destruct (@int_mul_some 7205759403792794 56 total eq_refl ltac:(lia) Ht)
    as [b Eb].
  change (S754_finite false 7205759403792794 (- (53)))
    with PyFloat.float_0_8 in Ea.
  change (S754_finite false 7205759403792794 (- (56)))
    with PyFloat.float_0_1 in Eb.
  rewrite Ea, Eb. eauto.
Qed.

End FloatFacts.

(** *** Signs *)

Section FloatSigns.

Local Open Scope Z_scope.

Lemma binary_round_aux_sign (m e : Z) (l : location) :
  PyFloat.is_nonneg
    (binary_round_aux PyFloat.prec PyFloat.emax false m e l).
Proof.
  unfold binary_round_aux.
  destruct (shr_fexp PyFloat.prec PyFloat.emax m e l) as [mrs1 e1].
  destruct (shr_fexp PyFloat.prec PyFloat.emax _ e1 loc_Exact) as [mrs2 e2].
  destruct (shr_m mrs2); simpl; try exact I.
  destruct (e2 <=? _); simpl; [reflexivity | exact I].
Qed.

Lemma of_int_sign (n : Z) (x : PyFloat.float) :
  0 <= n -> PyFloat.of_int n = Some x -> PyFloat.is_nonneg x.
Proof.
  intros Hn. unfold PyFloat.of_int, binary_normalize.
  destruct n as [|p|p]; try lia.
  - intros [= <-]. exact I.
  - unfold binary_round.
    destruct (shl_align p 0 _) as [mz ez].
    pose proof (binary_round_aux_sign (Zpos mz) ez loc_Exact) as Hs.
    destruct (binary_round_aux _ _ false (Zpos mz) ez loc_Exact);
      intros [= <-]; exact Hs.
Qed.

(** [int(c * n)] is not negative for a positive [c] and [n >= 0]. *)
Lemma int_mul_nonneg (mc : positive) (ec n v : Z) :
  0 <= n ->
  PyFloat.int_mul (S754_finite false mc ec) n = Some v -> 0 <= v.
Proof.
  intros Hn. unfold PyFloat.int_mul.
  destruct (PyFloat.of_int n) as [x|] eqn:Ex; [|discriminate].
  pose proof (of_int_sign Hn Ex) as Hx.
  destruct x as [s|s| |s m e]; simpl; try discriminate.
  - intros [= <-]. lia.
  - simpl in Hx. subst s.
    pose proof (binary_round_aux_sign (Zpos (mc * m)) (ec + e) loc_Exact) as Hs.
    simpl xorb.
    destruct (binary_round_aux _ _ false (Zpos (mc * m)) (ec + e) loc_Exact)
      as [s'|s'| |s' m' e']; simpl; try discriminate.
    + intros [= <-]. lia.
    + simpl in Hs. subst s'. intros [= <-]. simpl.
      apply Z.shiftl_nonneg. lia.
Qed.

Lemma split_sizes_nonneg (total train_size dev_size test_size : Z) :
  0 <= total ->
  PyFloat.split_sizes total = Some (train_size, dev_size, test_size) ->
  0 <= train_size /\ 0 <= dev_size.
Proof.
  intros Ht. unfold PyFloat.split_sizes.
  destruct (PyFloat.int_mul PyFloat.float_0_8 total) as [a|] eqn:Ea;
    [|discriminate].
  destruct (PyFloat.int_mul PyFloat.float_0_1 total) as [b|] eqn:Eb;
    [|discriminate].
  intros [= <- <- <-]. split.
  - exact (@int_mul_nonneg _ _ _ _ Ht Ea).
  - exact (@int_mul_nonneg _ _ _ _ Ht Eb).
Qed.

End FloatSigns.

(** C3, as stated, fails: at 3 * 2^49 sentences the exact product
    0.8 * total lies 1/8 below an integer, which is half the spacing of the
    doubles there; the float product rounds up to that integer and
    [train_size] is one more than the floor of the exact product. *)
Lemma split_sizes_differ_at_large_total :
  PyFloat.split_sizes 1688849860263936
  = Some (1351079888211149, 168884986026393, 168884986026394)%Z /\
  PyFloat.exact_sizes 1688849860263936
  = (1351079888211148, 168884986026393, 168884986026395)%Z /\
  PyFloat.split_sizes 1688849860263936
  <> Some (PyFloat.exact_sizes 1688849860263936).
Proof.
  split; [vm_compute; reflexivity|].
  split; [vm_compute; reflexivity|].
  vm_compute. discriminate.
Qed.

(** C3, amended.  For every total of at least 1, the sizes the script
    computes satisfy [test_size = total - train_size - dev_size], and none of
    the three is negative; they are computed for every total below 2^1000.
    For every total from 1 up to, and not including,
    3 * 2^49 = 1688849860263936, [train_size = floor(0.8 * total)] and
    [dev_size = floor(0.1 * total)], floors of the exact rational products.
    For 10 sentences the split is 8, 1, 1 and for 7 it is 5, 0, 2. *)
Theorem split_sizes_floor (total : Z) :
  (1 <= total)%Z ->
  (forall train_size dev_size test_size,
      PyFloat.split_sizes total = Some (train_size, dev_size, test_size) ->
      test_size = total - train_size - dev_size /\
      0 <= train_size /\ 0 <= dev_size /\ 0 <= test_size)%Z /\
  (total < 2 ^ 1000 ->
   exists train_size dev_size test_size,
     PyFloat.split_sizes total = Some (train_size, dev_size, test_size))%Z /\
  (total < 1688849860263936 ->
   PyFloat.split_sizes total
   = Some (4 * total / 5, total / 10, total - 4 * total / 5 - total / 10))%Z /\
  PyFloat.split_sizes 10 = Some (8, 1, 1)%Z /\
  PyFloat.split_sizes 7 = Some (5, 0, 2)%Z.
Proof.
  intros Ht.
  split; [|split; [|split; [|split; vm_compute; reflexivity]]].
  - intros train_size dev_size test_size Hs.
    assert (H0 : (0 <= total)%Z) by lia.
    destruct (@split_sizes_nonneg _ _ _ _ H0 Hs) as [Ha Hb].
    destruct (@split_sizes_test_nonneg _ _ _ _ Ht Hs) as [Hc Hd].
    repeat split; assumption.
  - intros Hlt. apply split_sizes_some. lia.
  - intros Hlt. apply split_sizes_exact. lia.
Qed.

Lemma split_sizes_floor_witness :
  (1 <= 1000)%Z /\
  PyFloat.split_sizes 1000 = Some (800, 100, 100)%Z.
Proof.
  assert (H : (1 <= 1000)%Z) by lia.
  split; [exact H|].
  apply (proj1 (proj2 (proj2 (split_sizes_floor H)))). lia.
Defined.

(** ** The script *)

Section ScriptFacts.

Context {R : PyRandom}.

Lemma glob_conllu_empty (dir : directory) :
  Forall (fun f => has_suffix ".conllu" (fst f) = false) dir ->
  glob_conllu dir = [].
Proof.
  unfold glob_conllu. induction 1 as [|f dir Hf _ IH]; simpl.
  - reflexivity.
  - now rewrite Hf.
Qed.

Lemma lcg_in_range : randbelow_in_range Lcg.lcg.
Proof.
  intros n g Hn. simpl.
  pose proof (Z.mod_pos_bound g (Z.of_nat n) ltac:(lia)). lia.
Qed.

Lemma lcg_seed_resets : seed_resets Lcg.lcg.
Proof. intros a g g'. reflexivity. Qed.

End ScriptFacts.

(** C1. Whatever the corpus, the shuffle returns a permutation of it, and
    the three slices taken from the shuffled list with the sizes the script
    computes have lengths that sum to the length of the corpus and hold,
    together, exactly the sentences of the corpus, each as many times as the
    corpus does. *)
Theorem partition_conserves {R : PyRandom} (g0 : rng_state)
    (corpus : list sentence) :
  randbelow_in_range R ->
  exists shuffled g',
    shuffle corpus (seed 42 g0) = Some (shuffled, g') /\
    Permutation corpus shuffled /\
    forall train_size dev_size test_size,
      PyFloat.split_sizes (Z.of_nat (length shuffled))
      = Some (train_size, dev_size, test_size) ->
      let '(train, dev, test) := partition train_size dev_size shuffled in
      length train + length dev + length test = length corpus /\
      Permutation (train ++ dev ++ test) corpus.
Proof.
  intros Hok.
  destruct (shuffle_permutes Hok corpus (seed 42 g0))
    as (shuffled & g' & Hs & Hperm).
  exists shuffled, g'. split; [exact Hs|]. split; [exact Hperm|].
  intros train_size dev_size test_size Hsizes.
  destruct (@split_sizes_nonneg _ _ _ _ (Zle_0_nat (length shuffled)) Hsizes)
    as [Ha Hb].
  pose proof (partition_app shuffled Ha Hb) as Happ.
  destruct (partition train_size dev_size shuffled) as [[train dev] test].
  split.
  - rewrite (Permutation_length Hperm), <- Happ at 1.
    rewrite !length_app. lia.
  - rewrite Happ. now apply Permutation_sym.
Qed.

Lemma partition_conserves_witness :
  let corpus := [["1 a"]; ["1 b"]; ["1 c"]; ["1 d"]; ["1 e"]]%string in
  exists shuffled g',
    shuffle corpus (seed (PyRandom := Lcg.lcg) 42 0%Z) = Some (shuffled, g') /\
    Permutation corpus shuffled /\
    forall train_size dev_size test_size,
      PyFloat.split_sizes (Z.of_nat (length shuffled))
      = Some (train_size, dev_size, test_size) ->
      let '(train, dev, test) := partition train_size dev_size shuffled in
      length train + length dev + length test = length corpus /\
      Permutation (train ++ dev ++ test) corpus.
Proof.
  exact (@partition_conserves Lcg.lcg 0%Z
           [["1 a"]; ["1 b"]; ["1 c"]; ["1 d"]; ["1 e"]]%string
           lcg_in_range).
Defined.

(** C6. The run is deterministic: the generator is seeded with 42 before
    the one shuffle of the whole corpus, so two runs on the same directory
    contents, listed in the same order, end the same way and write the same
    three files, whatever state the generator was in when each run began. *)
Theorem main_deterministic {R : PyRandom} (g1 g2 : rng_state)
    (dir : directory) :
  seed_resets R ->
  main g1 dir = main g2 dir /\
  files_written (main g1 dir) = files_written (main g2 dir).
Proof.
  intros Hseed.
  assert (E : main g1 dir = main g2 dir).
  { unfold main. now rewrite (Hseed 42%Z g1 g2). }
  split; [exact E | now rewrite E].
Qed.

Lemma main_deterministic_witness :
  let dir := [("a.conllu", "1 a" ++ nl ++ nl ++ "1 b" ++ nl);
              ("b.conllu", "1 c" ++ nl ++ "2 d" ++ nl)]%string in
  main (R := Lcg.lcg) 1%Z dir = main (R := Lcg.lcg) 2%Z dir /\
  files_written (main (R := Lcg.lcg) 1%Z dir)
  = files_written (main (R := Lcg.lcg) 2%Z dir).
Proof.
  exact (@main_deterministic Lcg.lcg 1%Z 2%Z
           [("a.conllu", "1 a" ++ nl ++ nl ++ "1 b" ++ nl);
            ("b.conllu", "1 c" ++ nl ++ "2 d" ++ nl)]%string
           lcg_seed_resets).
Defined.

(** C7. When no file of the input directory matches [*.conllu], the run
    reports it, writes no file and returns normally. *)
Theorem main_without_input {R : PyRandom} (g0 : rng_state)
    (dir : directory) :
  Forall (fun f => has_suffix ".conllu" (fst f) = false) dir ->
  main g0 dir = NoInput "No .conllu files found in raw/diachron" /\
  files_written (main g0 dir) = [] /\
  returns_normally (main g0 dir) = true.
Proof.
  intros Hnone. unfold main.
  rewrite (glob_conllu_empty Hnone). simpl. repeat split.
Qed.

Lemma main_without_input_witness :
  let dir := [("README.md", "corpus"); ("a.conllu.bak", "1 a")]%string in
  main (R := Lcg.lcg) 0%Z dir
  = NoInput "No .conllu files found in raw/diachron" /\
  files_written (main (R := Lcg.lcg) 0%Z dir) = [] /\
  returns_normally (main (R := Lcg.lcg) 0%Z dir) = true.
Proof.
  apply (@main_without_input Lcg.lcg).
  repeat constructor.
Defined.

(** ** A whole run *)

Section WholeRun.

Context {R : PyRandom}.

Hypothesis randbelow_ok : randbelow_in_range R.

(** With at least one sentence in the input, the run writes the three
    files, and the sentences written are those read, each once. *)
Lemma main_writes_partitions (g0 : rng_state) (dir : directory) :
  let corpus := read_all (glob_conllu dir) in
  corpus <> [] ->
  (Z.of_nat (length corpus) < 2 ^ 1000)%Z ->
  exists train dev test,
    main g0 dir
    = Written
        [("diachron-ud-train.conllu"%string, write_conllu_sentences train);
         ("diachron-ud-dev.conllu"%string, write_conllu_sentences dev);
         ("diachron-ud-test.conllu"%string, write_conllu_sentences test)] /\
    Permutation (train ++ dev ++ test) corpus.
Proof.
  intros corpus Hne Hlen. unfold main. fold corpus.
  destruct (glob_conllu dir) as [|f files] eqn:Eglob.
  { now elim Hne. }
  simpl negb. cbv iota.
  destruct (shuffle_permutes randbelow_ok corpus (seed 42 g0))
    as (shuffled & g' & -> & Hperm).
  assert (Elen : length shuffled = length corpus)
    by (symmetry; now apply Permutation_length).
  assert (Hpos : (1 <= Z.of_nat (length shuffled))%Z).
  { rewrite Elen. destruct corpus; [now elim Hne | simpl; lia]. }
  destruct (@split_sizes_some (Z.of_nat (length shuffled)))
    as (a & b & c & Hs); [rewrite Elen; lia|].
  rewrite Hs.
  replace (Z.of_nat (length shuffled) =? 0)%Z with false
    by (symmetry; apply Z.eqb_neq; lia).
  destruct (@split_sizes_nonneg _ _ _ _ (Zle_0_nat (length shuffled)) Hs)
    as [Ha Hb].
  pose proof (partition_app shuffled Ha Hb) as Happ.
  destruct (partition a b shuffled) as [[train dev] test].
  exists train, dev, test. split; [reflexivity|].
  rewrite Happ. now apply Permutation_sym.
Qed.

End WholeRun.

(** ** Worked examples *)

Section Examples.

Local Open Scope string_scope.

(** Leading blank lines, a run of blank lines and a last line without a
    terminator. *)
Example read_irregular_blank_lines :
  read_conllu_sentences
    (nl ++ nl ++ "# a" ++ nl ++ "1 x" ++ nl ++ nl ++ nl ++ nl ++ "1 y")
  = [["# a"; "1 x"]; ["1 y"]].
Proof. reflexivity. Qed.

(** A file with CRLF line ends reads like its LF twin. *)
Example read_crlf_file :
  read_conllu_sentences
    ("1 x" ++ crlf ++ "2 y" ++ crlf ++ crlf ++ "1 z" ++ crlf)
  = [["1 x"; "2 y"]; ["1 z"]].
Proof. reflexivity. Qed.

(** A file with one sentence and no blank line. *)
Example read_single_sentence :
  read_conllu_sentences ("# a" ++ nl ++ "1 x" ++ nl) = [["# a"; "1 x"]].
Proof. reflexivity. Qed.

(** A line of spaces is content. *)
Example read_space_line :
  read_conllu_sentences ("1 x" ++ nl ++ "  " ++ nl ++ "1 y" ++ nl)
  = [["1 x"; "  "; "1 y"]].
Proof. reflexivity. Qed.

Example write_two_sentences :
  write_conllu_sentences [["# a"; "1 x"]; ["1 y"]]
  = "# a" ++ nl ++ "1 x" ++ nl ++ nl ++ "1 y" ++ nl.
Proof. reflexivity. Qed.

Example write_nothing : write_conllu_sentences [] = "".
Proof. reflexivity. Qed.

(** Why the round trip asks for lines free of carriage returns: one inside
    a line is read back as a line end. *)
Example carriage_return_splits_a_line :
  read_conllu_sentences
    (write_conllu_sentences [[String "a" (String CR "b")]])
  = [["a"; "b"]].
Proof. reflexivity. Qed.

(** [x[i], x[j] = x[j], x[i]] *)
Example swap_cells : swap 3 1 [10; 11; 12; 13] = Some [10; 13; 12; 11].
Proof. reflexivity. Qed.

Example swap_out_of_range : swap 4 1 [10; 11; 12; 13] = None.
Proof. reflexivity. Qed.

(** Slices, with the bounds Python gives them. *)
Example slice_bounds :
  slice_to 2 [1; 2; 3] = [1; 2] /\ slice 2 9 [1; 2; 3] = [3] /\
  slice_from 5 [1; 2; 3] = [] /\ slice_to (-1) [1; 2; 3] = [1; 2].
Proof. repeat split. Qed.

(** The literals [0.8] and [0.1] are the doubles nearest to 4/5 and 1/10. *)
Example float_literals :
  SFdiv PyFloat.prec PyFloat.emax
    (S754_finite false 4 0) (S754_finite false 5 0) = PyFloat.float_0_8 /\
  SFdiv PyFloat.prec PyFloat.emax
    (S754_finite false 1 0) (S754_finite false 10 0) = PyFloat.float_0_1.
Proof. split; vm_compute; reflexivity. Qed.

(** [0.1 * 3] is [0.30000000000000004], not [0.3]. *)
Example float_product_rounds :
  PyFloat.mul PyFloat.float_0_1 (S754_finite false 3 0)
  = S754_finite false 5404319552844596 (-54).
Proof. vm_compute. reflexivity. Qed.

(** A run over two files and a stray one, six sentences in all. *)
Example run_two_files :
  main (R := Lcg.lcg) 7%Z
    [("a.conllu", "1 a" ++ nl ++ "2 b" ++ nl ++ nl ++ "1 c" ++ nl ++ nl ++ "1 d");
     ("notes.txt", "not a corpus");
     ("b.conllu", "1 x" ++ nl ++ nl ++ "1 y" ++ nl ++ nl ++ "1 z")]
  = Written
      [("diachron-ud-train.conllu",
         "1 a" ++ nl ++ "2 b" ++ nl ++ nl ++ "1 d" ++ nl ++ nl
         ++ "1 z" ++ nl ++ nl ++ "1 c" ++ nl);
       ("diachron-ud-dev.conllu", "");
       ("diachron-ud-test.conllu", "1 y" ++ nl ++ nl ++ "1 x" ++ nl)].
Proof. vm_compute. reflexivity. Qed.

(** Files that hold no sentence: the percentages of the report divide by
    zero. *)
Example run_empty_files :
  main (R := Lcg.lcg) 7%Z [("a.conllu", nl ++ nl); ("b.conllu", "")]
  = Raised ZeroDivisionError.
Proof. vm_compute. reflexivity. Qed.

End Examples.

(* ================================================================== *)
(** * Further properties *)
(* ================================================================== *)


(** ** Reading several files *)

Section ReadAll.

Local Open Scope list_scope.

Lemma read_all_from (files : directory) :
  forall acc,
    fold_left (fun all_sentences f =>
                 all_sentences ++ read_conllu_sentences (snd f)) files acc
    = acc ++ concat (map (fun f => read_conllu_sentences (snd f)) files).
Proof.
  induction files as [|f files IH]; intros acc; simpl.
  - now rewrite app_nil_r.
  - rewrite IH. now rewrite <- app_assoc.
Qed.

Lemma read_all_concat (files : directory) :
  read_all files
  = concat (map (fun f => read_conllu_sentences (snd f)) files).
Proof. unfold read_all. now rewrite read_all_from. Qed.

End ReadAll.

(** X1. The sentences collected from several files are those of each file
    read on its own, file after file: nothing is carried from one file into
    the next, the total is the sum of the counts per file, and reading two
    lists of files one after the other appends the results. *)
Theorem read_all_per_file (files more : directory) :
  read_all files
  = concat (map (fun f => read_conllu_sentences (snd f)) files) /\
  length (read_all files)
  = list_sum (map (fun f => length (read_conllu_sentences (snd f))) files) /\
  read_all (files ++ more) = read_all files ++ read_all more.
Proof.
  split; [apply read_all_concat|]. split.
  - rewrite read_all_concat.
    induction files as [|f files IH]; simpl; [reflexivity|].
    now rewrite length_app, IH.
  - rewrite !read_all_concat, map_app. apply concat_app.
Qed.

(** X2. Every line the reader returns is non-empty and holds neither a
    line feed nor a carriage return: terminators never leak into the
    sentences. *)
Theorem reader_lines_have_no_terminator (content : string) :
  Forall
    (fun s : sentence =>
       Forall (fun line =>
                 line <> EmptyString /\
                 no_lf line = true /\ no_cr line = true) s)
    (read_conllu_sentences content).
Proof.
  pose proof (read_conllu_sentences_clean content) as H.
  eapply Forall_impl; [|exact H].
  intros s [_ Hs]. eapply Forall_impl; [|exact Hs].
  intros line [Hne Ht]. split; [exact Hne|]. split.
  - now apply no_terminator_no_lf.
  - now apply no_terminator_no_cr.
Qed.

Section EmptyResult.

Lemma concat_nil_nonempty {A} (l : list (list A)) :
  Forall (fun s => s <> []) l -> concat l = [] -> l = [].
Proof.
  destruct 1 as [|s l Hs _]; [reflexivity|].
  simpl. intros E. apply app_eq_nil in E as [E _]. contradiction.
Qed.

Lemma content_lines_nil (lines : list string) :
  content_lines lines = [] <->
  Forall (fun line => rstrip_nl line = EmptyString) lines.
Proof.
  unfold content_lines. induction lines as [|l lines IH]; simpl.
  - split; constructor.
  - destruct (rstrip_nl l) eqn:E; simpl.
    + rewrite IH. split; intros H.
      * now constructor.
      * now inversion H.
    + split; [discriminate|]. intros H. inversion H. congruence.
Qed.

End EmptyResult.

(** X3. The reader returns no sentence exactly when every line of the file
    is blank; in particular an empty file and a file of blank lines hold no
    sentence. *)
Theorem read_nothing_iff_blank (content : string) :
  read_conllu_sentences content = [] <->
  Forall (fun line => rstrip_nl line = EmptyString) (file_lines content).
Proof.
  rewrite <- content_lines_nil.
  unfold read_conllu_sentences. rewrite read_lines_group.
  pose proof (group_lines_concat (file_lines content) []) as Hcat.
  simpl in Hcat. split; intros H.
  - rewrite <- Hcat, H. reflexivity.
  - apply concat_nil_nonempty; [apply group_lines_nonempty|].
    now rewrite Hcat.
Qed.


(** X4. Two files put end to end with a blank line between them read as the
    sentences of the first followed by those of the second, whether or not
    the first ends with a line terminator; the same holds of lists of lines
    with a blank line between. *)
Theorem read_concatenated_files (first second : string) :
  read_conllu_sentences (first ++ nl ++ nl ++ second)%string
  = read_conllu_sentences first ++ read_conllu_sentences second /\
  forall lines1 lines2,
    read_lines (lines1 ++ nl :: lines2)
    = read_lines lines1 ++ read_lines lines2.
Proof.
  split; [apply read_blank_line_between|].
  intros lines1 lines2. rewrite !read_lines_group.
  now apply group_lines_blank_between.
Qed.

(** ** The writer on partitions put together *)

Section WriterMore.

Local Open Scope string_scope.

Lemma render_app (p1 p2 : list sentence) :
  p1 <> [] -> p2 <> [] ->
  render (p1 ++ p2)%list = render p1 ++ nl ++ render p2.
Proof.
  intros H1 H2. induction p1 as [|s p1 IH]; [now elim H1|].
  destruct p1 as [|s' p1].
  - simpl app. rewrite (@render_cons s p2) by assumption. reflexivity.
  - change ((s :: s' :: p1) ++ p2)%list with (s :: ((s' :: p1) ++ p2))%list.
    rewrite (@render_cons s ((s' :: p1) ++ p2)%list) by discriminate.
    rewrite IH by discriminate.
    rewrite (@render_cons s (s' :: p1)) by discriminate.
    now rewrite !append_assoc.
Qed.

End WriterMore.

(** X6. Writing two non-empty partitions one after the other is writing
    the first, one blank line, and the second: the text of a partition is
    built from the texts of its parts. *)
Theorem write_partitions_appended (p1 p2 : list sentence) :
  p1 <> [] -> p2 <> [] ->
  write_conllu_sentences (p1 ++ p2)
  = (write_conllu_sentences p1 ++ nl ++ write_conllu_sentences p2)%string.
Proof.
  intros H1 H2. rewrite !write_conllu_sentences_render.
  now apply render_app.
Qed.

Lemma write_partitions_appended_witness :
  write_conllu_sentences
    ([["1 a"%string; "2 b"%string]] ++ [["1 c"%string]; ["1 d"%string]])
  = (write_conllu_sentences [["1 a"; "2 b"]] ++ nl
     ++ write_conllu_sentences [["1 c"]; ["1 d"]])%string.
Proof. apply write_partitions_appended; discriminate. Defined.

(** X7. Two different partitions of well-formed sentences are never
    written as the same text. *)
Theorem write_conllu_sentences_injective (p1 p2 : list sentence) :
  Forall clean_sentence p1 -> Forall clean_sentence p2 ->
  p1 <> p2 ->
  write_conllu_sentences p1 <> write_conllu_sentences p2.
Proof.
  intros H1 H2 Hne E. apply Hne.
  rewrite <- (read_written_text H1), <- (read_written_text H2).
  now rewrite E.
Qed.

Lemma write_conllu_sentences_injective_witness :
  write_conllu_sentences [["1 a"; "2 b"]]%string
  <> write_conllu_sentences [["1 a"]; ["2 b"]]%string.
Proof.
  apply write_conllu_sentences_injective.
  - repeat constructor; discriminate.
  - repeat constructor; discriminate.
  - discriminate.
Defined.


(** ** Sizes and slices *)

Section Sizes.

Local Open Scope Z_scope.

(** The two float sizes never add up to the whole. *)
Lemma split_sizes_test_positive (total train_size dev_size test_size : Z) :
  1 <= total ->
  PyFloat.split_sizes total = Some (train_size, dev_size, test_size) ->
  train_size + dev_size + test_size = total /\ 1 <= test_size.
Proof.
  intros Ht. unfold PyFloat.split_sizes.
  destruct (PyFloat.int_mul PyFloat.float_0_8 total) as [a|] eqn:Ea;
    [|discriminate].
  destruct (PyFloat.int_mul PyFloat.float_0_1 total) as [b|] eqn:Eb;
    [|discriminate].
  intros [= <- <- <-]. split; [lia|].
  pose proof (@int_mul_le 7205759403792794 53 total a
                eq_refl ltac:(lia) Ht Ea) as Ha.
  pose proof (@int_mul_le 7205759403792794 56 total b
                eq_refl ltac:(lia) Ht Eb) as Hb.
  change (2 ^ 53) with 9007199254740992 in Ha, Hb.
  change (2 ^ 56) with 72057594037927936 in Hb.
  change (Zpos 7205759403792794 + 1) with 7205759403792795 in Ha, Hb.
  lia.
Qed.

(** The slices of [main] for sizes that fit in the list. *)
Lemma partition_lengths {A} (x : list A) (a b : Z) :
  0 <= a -> 0 <= b -> a + b <= Z.of_nat (length x) ->
  let '(train, dev, test) := partition a b x in
  Z.of_nat (length train) = a /\
  Z.of_nat (length dev) = b /\
  Z.of_nat (length test) = Z.of_nat (length x) - a - b /\
  train = firstn (Z.to_nat a) x /\
  dev = firstn (Z.to_nat b) (skipn (Z.to_nat a) x) /\
  test = skipn (Z.to_nat (a + b)) x.
Proof.
  intros Ha Hb Hab. unfold partition, slice_to, slice_from, slice, bound.
  set (len := Z.of_nat (length x)) in *.
  replace (0 <? 0) with false by reflexivity.
  replace (a <? 0) with false by (symmetry; apply Z.ltb_ge; lia).
  replace (a + b <? 0) with false by (symmetry; apply Z.ltb_ge; lia).
  replace (len <? 0) with false by (symmetry; apply Z.ltb_ge; unfold len; lia).
  replace (Z.to_nat (Z.min 0 len)) with 0%nat by lia.
  replace (Z.to_nat (Z.min len len)) with (length x) by (unfold len; lia).
  replace (Z.min a len) with a by lia.
  replace (Z.min (a + b) len) with (a + b) by lia.
  rewrite Nat.sub_0_r. simpl skipn.
  replace (Z.to_nat (a + b) - Z.to_nat a)%nat with (Z.to_nat b) by lia.
  assert (Hall : firstn (length x - Z.to_nat (a + b))
                   (skipn (Z.to_nat (a + b)) x)
                 = skipn (Z.to_nat (a + b)) x)
    by (apply firstn_all2; rewrite length_skipn; lia).
  rewrite Hall.
  rewrite !length_firstn, !length_skipn.
  repeat split; unfold len in *; lia.
Qed.

End Sizes.

(** X10. The three partitions have exactly the sizes computed for them:
    train is the first [train_size] sentences of the shuffled list, dev the
    next [dev_size], test the [test_size] that remain. *)
Theorem partition_has_computed_sizes {A} (all_sentences : list A)
    (train_size dev_size test_size : Z) :
  all_sentences <> [] ->
  PyFloat.split_sizes (Z.of_nat (length all_sentences))
  = Some (train_size, dev_size, test_size) ->
  let '(train, dev, test) := partition train_size dev_size all_sentences in
  Z.of_nat (length train) = train_size /\
  Z.of_nat (length dev) = dev_size /\
  Z.of_nat (length test) = test_size /\
  train = firstn (Z.to_nat train_size) all_sentences /\
  dev = firstn (Z.to_nat dev_size)
          (skipn (Z.to_nat train_size) all_sentences) /\
  test = skipn (Z.to_nat (train_size + dev_size)) all_sentences.
Proof.
  intros Hne Hs.
  assert (Ht : (1 <= Z.of_nat (length all_sentences))%Z)
    by (destruct all_sentences; [now elim Hne | simpl; lia]).
  destruct (@split_sizes_test_positive _ _ _ _ Ht Hs) as [Hsum Hpos].
  destruct (@split_sizes_nonneg _ _ _ _ (Zle_0_nat (length all_sentences)) Hs)
    as [Ha Hb].
  assert (Hab : (train_size + dev_size <= Z.of_nat (length all_sentences))%Z)
    by lia.
  pose proof (partition_lengths all_sentences Ha Hb Hab) as H.
  destruct (partition train_size dev_size all_sentences) as [[train dev] test].
  destruct H as (H1 & H2 & H3 & H4 & H5 & H6).
  repeat split; try assumption. lia.
Qed.

Lemma partition_has_computed_sizes_witness :
  let all_sentences := [1; 2; 3; 4; 5; 6; 7; 8; 9; 10; 11; 12] in
  let '(train, dev, test) := partition 9 1 all_sentences in
  Z.of_nat (length train) = 9%Z /\
  Z.of_nat (length dev) = 1%Z /\
  Z.of_nat (length test) = 2%Z /\
  train = firstn (Z.to_nat 9) all_sentences /\
  dev = firstn (Z.to_nat 1) (skipn (Z.to_nat 9) all_sentences) /\
  test = skipn (Z.to_nat (9 + 1)) all_sentences.
Proof.
  apply (@partition_has_computed_sizes nat
           [1; 2; 3; 4; 5; 6; 7; 8; 9; 10; 11; 12] 9 1 2).
  - discriminate.
  - vm_compute. reflexivity.
Defined.

(** X11. Whatever the total, the test partition gets at least one sentence
    and the three sizes add up to the total.  Below 3 * 2^49 sentences, the
    test partition is never smaller than the dev partition and exceeds it
    by at most two sentences, the train partition holds between 8 and 8
    times plus 7 the size of dev, the dev partition is empty exactly when
    there are fewer than 10 sentences, and the train partition is empty
    exactly when there is a single sentence. *)
Theorem split_sizes_shape (total train_size dev_size test_size : Z) :
  (1 <= total)%Z ->
  PyFloat.split_sizes total = Some (train_size, dev_size, test_size) ->
  (train_size + dev_size + test_size = total /\
   1 <= test_size /\
   (total < 1688849860263936 ->
    dev_size <= test_size <= dev_size + 2 /\
    8 * dev_size <= train_size <= 8 * dev_size + 7 /\
    (dev_size = 0 <-> total < 10) /\
    (train_size = 0 <-> total = 1)))%Z.
Proof.
  intros Ht Hs.
  destruct (@split_sizes_test_positive _ _ _ _ Ht Hs) as [Hsum Hpos].
  split; [exact Hsum|]. split; [exact Hpos|].
  intros Hlt.
  assert (E : Some (train_size, dev_size, test_size)
              = Some (4 * total / 5, total / 10,
                      total - 4 * total / 5 - total / 10)%Z)
    by (rewrite <- Hs; apply split_sizes_exact; lia).
  assert (Ea : (train_size = 4 * total / 5)%Z) by congruence.
  assert (Eb : (dev_size = total / 10)%Z) by congruence.
  clear E Hs.
  pose proof (Z.div_mod (4 * total) 5 ltac:(lia)).
  pose proof (Z.mod_pos_bound (4 * total) 5 ltac:(lia)).
  pose proof (Z.div_mod total 10 ltac:(lia)).
  pose proof (Z.mod_pos_bound total 10 ltac:(lia)).
  lia.
Qed.

Lemma split_sizes_shape_witness :
  (1 <= 19)%Z /\
  PyFloat.split_sizes 19 = Some (15, 1, 3)%Z /\
  (15 + 1 + 3 = 19 /\ 1 <= 3 /\
   (19 < 1688849860263936 ->
    1 <= 3 <= 1 + 2 /\ 8 * 1 <= 15 <= 8 * 1 + 7 /\
    (1 = 0 <-> 19 < 10) /\ (15 = 0 <-> 19 = 1)))%Z.
Proof.
  assert (H1 : (1 <= 19)%Z) by lia.
  assert (H2 : PyFloat.split_sizes 19 = Some (15, 1, 3)%Z)
    by (vm_compute; reflexivity).
  split; [exact H1|]. split; [exact H2|].
  exact (split_sizes_shape H1 H2).
Defined.


(** ** Runs *)

Section Runs.

Context {R : PyRandom}.

Lemma glob_conllu_idempotent (dir : directory) :
  glob_conllu (glob_conllu dir) = glob_conllu dir.
Proof.
  unfold glob_conllu. induction dir as [|f dir IH]; simpl; [reflexivity|].
  destruct (has_suffix ".conllu" (fst f)) eqn:E; simpl; [|exact IH].
  now rewrite E, IH.
Qed.

Lemma split_sizes_zero : PyFloat.split_sizes 0 = Some (0, 0, 0)%Z.
Proof. vm_compute. reflexivity. Qed.

(** Matching files without a single sentence. *)
Lemma main_no_sentence (g0 : rng_state) (dir : directory) :
  glob_conllu dir <> [] -> read_all (glob_conllu dir) = [] ->
  main g0 dir = Raised ZeroDivisionError.
Proof.
  intros Hglob Hcorpus. unfold main.
  destruct (glob_conllu dir) as [|f files]; [now elim Hglob|].
  simpl negb. cbv iota. rewrite Hcorpus.
  unfold shuffle. simpl shuffle_loop. cbv beta iota. simpl length.
  change (Z.of_nat 0) with 0%Z. rewrite split_sizes_zero. reflexivity.
Qed.

Lemma read_all_clean (files : directory) :
  Forall clean_sentence (read_all files).
Proof.
  unfold read_all.
  assert (H : forall acc,
             Forall clean_sentence acc ->
             Forall clean_sentence
               (fold_left (fun all_sentences f =>
                             all_sentences ++ read_conllu_sentences (snd f))
                          files acc)).
  { induction files as [|f files IH]; intros acc Hacc; simpl; [exact Hacc|].
    apply IH. apply Forall_app. split; [exact Hacc|].
    apply read_conllu_sentences_clean. }
  apply H. constructor.
Qed.

Hypothesis randbelow_ok : randbelow_in_range R.

(** The outcome of [main], by cases on what the input holds. *)
Lemma main_outcomes (g0 : rng_state) (dir : directory) :
  (Z.of_nat (length (read_all (glob_conllu dir))) < 2 ^ 1000)%Z ->
  (glob_conllu dir = [] /\
   main g0 dir = NoInput "No .conllu files found in raw/diachron") \/
  (glob_conllu dir <> [] /\ read_all (glob_conllu dir) = [] /\
   main g0 dir = Raised ZeroDivisionError) \/
  (read_all (glob_conllu dir) <> [] /\
   exists train dev test,
     main g0 dir
     = Written
         [("diachron-ud-train.conllu"%string, write_conllu_sentences train);
          ("diachron-ud-dev.conllu"%string, write_conllu_sentences dev);
          ("diachron-ud-test.conllu"%string, write_conllu_sentences test)] /\
     Permutation (train ++ dev ++ test) (read_all (glob_conllu dir))).
Proof.
  intros Hlen.
  destruct (glob_conllu dir) as [|f files] eqn:Eglob.
  - left. split; [reflexivity|]. unfold main. now rewrite Eglob.
  - right. destruct (read_all (f :: files)) as [|s corpus] eqn:Ecorpus.
    + left. split; [discriminate|]. split; [reflexivity|].
      apply main_no_sentence; rewrite Eglob; [discriminate | exact Ecorpus].
    + right. split; [discriminate|].
      rewrite <- Ecorpus, <- Eglob.
      apply (main_writes_partitions randbelow_ok g0 dir);
        rewrite Eglob, Ecorpus; [discriminate | exact Hlen].
Qed.

End Runs.

(** X8. When files match but hold no sentence at all (empty files, files of
    blank lines), the run stops on the division by the total in the report
    of the split sizes: it raises ZeroDivisionError and writes no file. *)
Theorem main_without_sentences {R : PyRandom} (g0 : rng_state)
    (dir : directory) :
  glob_conllu dir <> [] ->
  read_all (glob_conllu dir) = [] ->
  main g0 dir = Raised ZeroDivisionError /\
  files_written (main g0 dir) = [] /\
  returns_normally (main g0 dir) = false.
Proof.
  intros Hglob Hcorpus.
  rewrite (main_no_sentence g0 dir Hglob Hcorpus). repeat split.
Qed.

Lemma main_without_sentences_witness :
  let dir := [("a.conllu", nl ++ nl); ("b.conllu", "")]%string in
  main (R := Lcg.lcg) 0%Z dir = Raised ZeroDivisionError /\
  files_written (main (R := Lcg.lcg) 0%Z dir) = [] /\
  returns_normally (main (R := Lcg.lcg) 0%Z dir) = false.
Proof.
  apply (@main_without_sentences Lcg.lcg).
  - discriminate.
  - reflexivity.
Defined.

(** X9. Files whose name does not match [*.conllu] have no effect on a
    run: it ends as it would with the matching files alone. *)
Theorem main_ignores_other_files {R : PyRandom} (g0 : rng_state)
    (dir : directory) :
  main g0 dir = main g0 (glob_conllu dir).
Proof. unfold main. now rewrite glob_conllu_idempotent. Qed.

(** X12. What the end of a run tells about its input.  A run that prints
    the report of an empty input found no matching file; a run that raises
    ZeroDivisionError found matching files and read no sentence from them; a
    run that writes its files read at least one sentence, and the three
    files hold, together, the sentences read, each once.  The shuffle never
    indexes out of range and the sizes never overflow: no run ends in
    IndexError or OverflowError. *)
Theorem main_ending_reflects_input {R : PyRandom} (g0 : rng_state)
    (dir : directory) :
  randbelow_in_range R ->
  (Z.of_nat (length (read_all (glob_conllu dir))) < 2 ^ 1000)%Z ->
  (forall report, main g0 dir = NoInput report -> glob_conllu dir = []) /\
  (main g0 dir = Raised ZeroDivisionError ->
   glob_conllu dir <> [] /\ read_all (glob_conllu dir) = []) /\
  (forall files,
      main g0 dir = Written files ->
      read_all (glob_conllu dir) <> [] /\
      exists train dev test,
        files
        = [("diachron-ud-train.conllu"%string, write_conllu_sentences train);
           ("diachron-ud-dev.conllu"%string, write_conllu_sentences dev);
           ("diachron-ud-test.conllu"%string, write_conllu_sentences test)] /\
        Permutation (train ++ dev ++ test) (read_all (glob_conllu dir))) /\
  main g0 dir <> Raised IndexError /\
  main g0 dir <> Raised OverflowError.
Proof.
  intros Hok Hlen.
  destruct (main_outcomes Hok g0 dir Hlen)
    as [[Hglob E] | [(Hglob & Hcorpus & E)
                    | (Hcorpus & tr & dv & te & E & Hperm)]];
    rewrite E.
  - repeat split; try discriminate. intros _ _. exact Hglob.
  - repeat split; try discriminate; assumption.
  - repeat split; try discriminate.
    + exact Hcorpus.
    + exists tr, dv, te. split; [congruence | exact Hperm].
Qed.

Lemma main_ending_reflects_input_witness :
  let dir := [("a.conllu", "1 a" ++ nl ++ nl ++ "1 b" ++ nl);
              ("b.conllu", "1 c" ++ nl)]%string in
  (Z.of_nat (length (read_all (glob_conllu dir))) < 2 ^ 1000)%Z /\
  read_all (glob_conllu dir) <> [] /\
  main (R := Lcg.lcg) 0%Z dir <> Raised IndexError /\
  main (R := Lcg.lcg) 0%Z dir <> Raised OverflowError.
Proof.
  cbv zeta.
  assert (Hlen : (Z.of_nat
                    (length
                       (read_all
                          (glob_conllu
                             [("a.conllu", "1 a" ++ nl ++ nl ++ "1 b" ++ nl);
                              ("b.conllu", "1 c" ++ nl)]%string)))
                  < 2 ^ 1000)%Z)
    by (apply Z.ltb_lt; vm_compute; reflexivity).
  destruct (@main_ending_reflects_input Lcg.lcg 0%Z
              [("a.conllu", "1 a" ++ nl ++ nl ++ "1 b" ++ nl);
               ("b.conllu", "1 c" ++ nl)]%string
              lcg_in_range Hlen) as (_ & _ & Hw & Hidx & Hovf).
  split; [exact Hlen|].
  split; [exact (proj1 (Hw _ eq_refl))|].
  split; [exact Hidx | exact Hovf].
Defined.

(** X13. After a run on an input with at least one sentence, reading the
    three files written gives back, together, exactly the sentences read
    from the input files, each as many times as it was read. *)
Theorem main_output_reads_back {R : PyRandom} (g0 : rng_state)
    (dir : directory) :
  randbelow_in_range R ->
  read_all (glob_conllu dir) <> [] ->
  (Z.of_nat (length (read_all (glob_conllu dir))) < 2 ^ 1000)%Z ->
  exists train_text dev_text test_text,
    main g0 dir
    = Written [("diachron-ud-train.conllu"%string, train_text);
               ("diachron-ud-dev.conllu"%string, dev_text);
               ("diachron-ud-test.conllu"%string, test_text)] /\
    Permutation
      (read_conllu_sentences train_text ++ read_conllu_sentences dev_text
       ++ read_conllu_sentences test_text)
      (read_all (glob_conllu dir)).
Proof.
  intros Hok Hne Hlen.
  destruct (main_writes_partitions Hok g0 dir Hne Hlen)
    as (train & dev & test & Hmain & Hperm).
  exists (write_conllu_sentences train), (write_conllu_sentences dev),
         (write_conllu_sentences test).
  split; [exact Hmain|].
  assert (Hclean : Forall clean_sentence (train ++ dev ++ test)).
  { apply Permutation_Forall with (read_all (glob_conllu dir));
      [now apply Permutation_sym | apply read_all_clean]. }
  apply Forall_app in Hclean as [Htrain Hclean].
  apply Forall_app in Hclean as [Hdev Htest].
  now rewrite !read_written_text.
Qed.

Lemma main_output_reads_back_witness :
  let dir := [("a.conllu", "1 a" ++ nl ++ nl ++ "1 b" ++ nl);
              ("b.conllu", "1 c" ++ nl)]%string in
  exists train_text dev_text test_text,
    main (R := Lcg.lcg) 0%Z dir
    = Written [("diachron-ud-train.conllu"%string, train_text);
               ("diachron-ud-dev.conllu"%string, dev_text);
               ("diachron-ud-test.conllu"%string, test_text)] /\
    Permutation
      (read_conllu_sentences train_text ++ read_conllu_sentences dev_text
       ++ read_conllu_sentences test_text)
      (read_all (glob_conllu dir)).
Proof.
  apply (@main_output_reads_back Lcg.lcg 0%Z
           [("a.conllu", "1 a" ++ nl ++ nl ++ "1 b" ++ nl);
            ("b.conllu", "1 c" ++ nl)]%string
           lcg_in_range).
  - discriminate.
  - apply Z.ltb_lt. vm_compute. reflexivity.
Defined.


(** X14. A copy of a file with CR LF line ends reads exactly as the file
    with LF line ends does. *)
Theorem read_crlf_copy (content : string) :
  no_cr content = true ->
  read_conllu_sentences (store_newlines crlf content)
  = read_conllu_sentences content.
Proof.
  intros H. unfold read_conllu_sentences, file_lines.
  rewrite (@universal_newlines_store crlf content (or_intror eq_refl) H).
  now rewrite (universal_newlines_no_cr _ H).
Qed.

Lemma read_crlf_copy_witness :
  read_conllu_sentences
    (store_newlines crlf ("# a" ++ nl ++ "1 x" ++ nl ++ nl ++ "1 y" ++ nl))
  = read_conllu_sentences ("# a" ++ nl ++ "1 x" ++ nl ++ nl ++ "1 y" ++ nl).
Proof. apply read_crlf_copy. reflexivity. Defined.

(** ** The files of a run *)

Section OutputFiles.

Local Open Scope string_scope.

(** A partition with a sentence in it is written as a non-empty text. *)
Lemma write_nonempty (p : list sentence) :
  Forall clean_sentence p -> p <> [] ->
  write_conllu_sentences p <> "".
Proof.
  intros Hclean Hne. rewrite write_conllu_sentences_render.
  destruct Hclean as [|s rest [Hs Hlines] _]; [now elim Hne|].
  destruct Hlines as [|line s [Hline _] _]; [now elim Hs|].
  destruct line as [|c line]; [now elim Hline|].
  destruct rest as [|s' rest].
  - change (render [String c line :: s]) with (block (String c line :: s)).
    rewrite block_cons. discriminate.
  - rewrite (@render_cons (String c line :: s) (s' :: rest)) by discriminate.
    rewrite block_cons. discriminate.
Qed.

End OutputFiles.

Section RunSlices.

Context {R : PyRandom}.

Hypothesis randbelow_ok : randbelow_in_range R.

(** The three files of a run, as slices of the shuffled corpus. *)
Lemma main_writes_slices (g0 : rng_state) (dir : directory) :
  let corpus := read_all (glob_conllu dir) in
  corpus <> [] ->
  (Z.of_nat (length corpus) < 2 ^ 1000)%Z ->
  exists shuffled train_size dev_size test_size,
    Permutation corpus shuffled /\
    PyFloat.split_sizes (Z.of_nat (length corpus))
    = Some (train_size, dev_size, test_size) /\
    main g0 dir
    = Written
        [("diachron-ud-train.conllu"%string,
           write_conllu_sentences (firstn (Z.to_nat train_size) shuffled));
         ("diachron-ud-dev.conllu"%string,
           write_conllu_sentences
             (firstn (Z.to_nat dev_size)
                (skipn (Z.to_nat train_size) shuffled)));
         ("diachron-ud-test.conllu"%string,
           write_conllu_sentences
             (skipn (Z.to_nat (train_size + dev_size)) shuffled))].
Proof.
  intros corpus Hne Hlen. unfold main. fold corpus.
  destruct (glob_conllu dir) as [|f files] eqn:Eglob.
  { now elim Hne. }
  simpl negb. cbv iota.
  destruct (shuffle_permutes randbelow_ok corpus (seed 42 g0))
    as (shuffled & g' & -> & Hperm).
  assert (Elen : length shuffled = length corpus)
    by (symmetry; now apply Permutation_length).
  assert (Hpos : (1 <= Z.of_nat (length shuffled))%Z).
  { rewrite Elen. destruct corpus; [now elim Hne | simpl; lia]. }
  destruct (@split_sizes_some (Z.of_nat (length shuffled)))
    as (a & b & c & Hs); [rewrite Elen; lia|].
  rewrite Hs.
  replace (Z.of_nat (length shuffled) =? 0)%Z with false
    by (symmetry; apply Z.eqb_neq; lia).
  destruct (@split_sizes_nonneg _ _ _ _ (Zle_0_nat (length shuffled)) Hs)
    as [Ha Hb].
  destruct (@split_sizes_test_positive _ _ _ _ Hpos Hs) as [Hsum Hc].
  assert (Hab : (a + b <= Z.of_nat (length shuffled))%Z) by lia.
  pose proof (partition_lengths shuffled Ha Hb Hab) as H.
  destruct (partition a b shuffled) as [[train dev] test].
  destruct H as (_ & _ & _ & -> & -> & ->).
  exists shuffled, a, b, c. split; [exact Hperm|].
  split; [now rewrite <- Elen | reflexivity].
Qed.

End RunSlices.

(** X15. With fewer than 10 sentences in the input the dev file is written
    empty; with a single sentence the train file is empty too and the
    sentence goes to the test file. *)
Theorem main_on_small_corpus {R : PyRandom} (g0 : rng_state)
    (dir : directory) :
  randbelow_in_range R ->
  read_all (glob_conllu dir) <> [] ->
  length (read_all (glob_conllu dir)) < 10 ->
  exists train_text test_text,
    main g0 dir
    = Written [("diachron-ud-train.conllu"%string, train_text);
               ("diachron-ud-dev.conllu"%string, EmptyString);
               ("diachron-ud-test.conllu"%string, test_text)] /\
    (length (read_all (glob_conllu dir)) = 1 ->
     train_text = EmptyString /\
     test_text = write_conllu_sentences (read_all (glob_conllu dir))).
Proof.
  intros Hok Hne Hsmall.
  assert (Hlen : (Z.of_nat (length (read_all (glob_conllu dir)))
                  < 2 ^ 1000)%Z).
  { apply Z.lt_trans with 10%Z; [lia|]. apply Z.ltb_lt. reflexivity. }
  destruct (main_writes_slices Hok g0 dir Hne Hlen)
    as (shuffled & a & b & c & Hperm & Hs & ->).
  set (corpus := read_all (glob_conllu dir)) in *.
  assert (Ht : (1 <= Z.of_nat (length corpus))%Z)
    by (destruct corpus; [now elim Hne | simpl; lia]).
  assert (E : Some (a, b, c)
              = Some (4 * Z.of_nat (length corpus) / 5,
                      Z.of_nat (length corpus) / 10,
                      Z.of_nat (length corpus)
                      - 4 * Z.of_nat (length corpus) / 5
                      - Z.of_nat (length corpus) / 10)%Z)
    by (rewrite <- Hs; apply split_sizes_exact; lia).
  assert (Ea : a = (4 * Z.of_nat (length corpus) / 5)%Z) by congruence.
  assert (Eb : b = (Z.of_nat (length corpus) / 10)%Z) by congruence.
  assert (Hb0 : b = 0%Z) by (rewrite Eb; apply Z.div_small; lia).
  rewrite Hb0. simpl firstn.
  eexists. eexists. split; [reflexivity|].
  intros H1. rewrite H1 in Ea. change (4 * Z.of_nat 1 / 5)%Z with 0%Z in Ea.
  rewrite Ea. simpl. split; [reflexivity|].
  f_equal.
  destruct corpus as [|s [|s' corpus]]; try discriminate.
  now apply Permutation_length_1_inv.
Qed.

Lemma main_on_small_corpus_witness :
  let dir := [("a.conllu", "1 a" ++ nl ++ "2 b" ++ nl)]%string in
  exists train_text test_text,
    main (R := Lcg.lcg) 0%Z dir
    = Written [("diachron-ud-train.conllu"%string, train_text);
               ("diachron-ud-dev.conllu"%string, EmptyString);
               ("diachron-ud-test.conllu"%string, test_text)] /\
    (length (read_all (glob_conllu dir)) = 1 ->
     train_text = EmptyString /\
     test_text = write_conllu_sentences (read_all (glob_conllu dir))).
Proof.
  apply (@main_on_small_corpus Lcg.lcg 0%Z
           [("a.conllu", "1 a" ++ nl ++ "2 b" ++ nl)]%string lcg_in_range).
  - discriminate.
  - vm_compute. lia.
Defined.

(** X16. Whenever a run writes its files, the test file is not empty: at
    least one sentence always goes to test. *)
Theorem main_test_file_not_empty {R : PyRandom} (g0 : rng_state)
    (dir : directory) :
  randbelow_in_range R ->
  read_all (glob_conllu dir) <> [] ->
  (Z.of_nat (length (read_all (glob_conllu dir))) < 2 ^ 1000)%Z ->
  exists train_text dev_text test_text,
    main g0 dir
    = Written [("diachron-ud-train.conllu"%string, train_text);
               ("diachron-ud-dev.conllu"%string, dev_text);
               ("diachron-ud-test.conllu"%string, test_text)] /\
    test_text <> EmptyString.
Proof.
  intros Hok Hne Hlen.
  destruct (main_writes_slices Hok g0 dir Hne Hlen)
    as (shuffled & a & b & c & Hperm & Hs & ->).
  set (corpus := read_all (glob_conllu dir)) in *.
  assert (Ht : (1 <= Z.of_nat (length corpus))%Z)
    by (destruct corpus; [now elim Hne | simpl; lia]).
  destruct (@split_sizes_test_positive _ _ _ _ Ht Hs) as [Hsum Hc].
  destruct (@split_sizes_nonneg _ _ _ _ (Zle_0_nat (length corpus)) Hs)
    as [Ha Hb].
  do 3 eexists. split; [reflexivity|].
  assert (Elen : length shuffled = length corpus)
    by (symmetry; now apply Permutation_length).
  apply write_nonempty.
  - apply Forall_forall. intros s Hin.
    assert (Hclean : Forall clean_sentence shuffled).
    { apply Permutation_Forall with corpus; [exact Hperm|].
      apply read_all_clean. }
    rewrite Forall_forall in Hclean. apply Hclean.
    rewrite <- (firstn_skipn (Z.to_nat (a + b)) shuffled).
    apply in_or_app. now right.
  - intros E. apply (f_equal (@length sentence)) in E.
    rewrite length_skipn in E. simpl in E. lia.
Qed.

Lemma main_test_file_not_empty_witness :
  let dir := [("a.conllu", "1 a" ++ nl ++ nl ++ "1 b" ++ nl)]%string in
  exists train_text dev_text test_text,
    main (R := Lcg.lcg) 0%Z dir
    = Written [("diachron-ud-train.conllu"%string, train_text);
               ("diachron-ud-dev.conllu"%string, dev_text);
               ("diachron-ud-test.conllu"%string, test_text)] /\
    test_text <> EmptyString.
Proof.
  apply (@main_test_file_not_empty Lcg.lcg 0%Z
           [("a.conllu", "1 a" ++ nl ++ nl ++ "1 b" ++ nl)]%string
           lcg_in_range).
  - discriminate.
  - apply Z.ltb_lt. vm_compute. reflexivity.
Defined.
